(** * Folder-map builder and publisher (main.py)

    A shallow embedding of [GoogleDriveRPA.build_folder_path_map],
    [GoogleDriveRPA.upload_map_to_drive] and the HTTP entry point [main].

    The Drive client ([self._service]) is an external collaborator: it is
    modelled as a deterministic state machine behind the [DriveService]
    interface, and every call the program issues is recorded in a trace.
    Python exceptions are explicit results; the [while True] pagination loop
    is driven by fuel.  Calls to [print] only write to the log and are
    omitted. *)

From Stdlib Require Import List NArith PeanoNat Lia Bool String Ascii DecimalString.
Import ListNotations.

Set Implicit Arguments.

(** ** Python strings

    A Python [str] is a sequence of code points; surrogates are ordinary
    elements of it.  [bytes] are sequences of values below 256. *)

Definition codepoint := N.
Definition pystr := list codepoint.
Definition pybytes := list N.

(** A string literal of the source. *)
Definition lit (s : string) : pystr :=
  map N_of_ascii (list_ascii_of_string s).

Fixpoint str_eqb (a b : pystr) : bool :=
  match a, b with
  | [], [] => true
  | x :: a', y :: b' => N.eqb x y && str_eqb a' b'
  | _, _ => false
  end.

(** [str(x)] as an f-string placeholder formats it: [None] prints as
    the word None. *)
Definition fmt_opt (x : option pystr) : pystr :=
  match x with
  | Some s => s
  | None => lit "None"
  end.

(** Decimal and hexadecimal digits, for the texts Python formats. *)
Definition hex_digit (d : N) : codepoint :=
  if (d <? 10)%N then (48 + d)%N else (87 + d)%N.

Definition hex4 (n : N) : pystr :=
  [ hex_digit (N.shiftr n 12 mod 16); hex_digit (N.shiftr n 8 mod 16);
    hex_digit (N.shiftr n 4 mod 16); hex_digit (n mod 16) ]%N.

Definition decimal (n : N) : pystr :=
  lit (DecimalString.NilZero.string_of_uint (N.to_uint n)).

(** ** Exceptions

    The exceptions that can reach the handler of [main].  The first four
    are subclasses of [Exception]; [SystemExit] and [KeyboardInterrupt]
    derive from [BaseException] only, so [except Exception] lets them
    through. *)

Inductive exc : Type :=
| ServiceError (msg : pystr)
    (* raised by the client library: credentials, transport, HTTP status;
       [msg] is what [str(e)] gives *)
| IndexError
| KeyError (key : pystr)
| UnicodeEncodeError (c : codepoint) (start stop : N)
| SystemExit (code : pystr)
    (* raised while a call is in progress; [code] is what [str(e)] gives *)
| KeyboardInterrupt.

(** [isinstance(e, Exception)] *)
Definition is_Exception (e : exc) : bool :=
  match e with
  | SystemExit _ | KeyboardInterrupt => false
  | _ => true
  end.

(** [str(e)].  The keys the program subscripts with are the literals
    ['id'] and ['name'], whose [repr] only adds the quotes. *)
Definition py_str (e : exc) : pystr :=
  match e with
  | ServiceError msg => msg
  | IndexError => lit "list index out of range"
  | KeyError k => lit "'" ++ k ++ lit "'"
  | UnicodeEncodeError c start stop =>
      if (stop =? start + 1)%N then
        lit "'utf-8' codec can't encode character '\u" ++ hex4 c
          ++ lit "' in position " ++ decimal start
          ++ lit ": surrogates not allowed"
      else
        lit "'utf-8' codec can't encode characters in position "
          ++ decimal start ++ lit "-" ++ decimal (stop - 1)
          ++ lit ": surrogates not allowed"
  | SystemExit code => code
  | KeyboardInterrupt => []
  end.

Inductive outcome (A : Type) : Type :=
| Returned (a : A)
| Raised (e : exc).
Arguments Raised {A} e.

Definition obind {A B} (o : outcome A) (k : A -> outcome B) : outcome B :=
  match o with
  | Returned a => k a
  | Raised e => Raised e
  end.

(** ** Values exchanged with the Drive API *)

(** A file resource as the API returns it under a field projection: each
    field may be absent from the JSON object.  Elements of [parents] are
    strings; [None] stands for a JSON null (and for the element of the
    default list the builder subscripts). *)
Record FileResource : Type := {
  f_id : option pystr;
  f_name : option pystr;
  f_parents : option (list (option pystr))
}.

Record ListResponse : Type := {
  files : option (list FileResource);
  nextPageToken : option pystr
}.

(** Keyword arguments of [files().list]; [None] is an argument that the call
    omits or passes as [None]. *)
Record ListParams : Type := {
  lp_q : pystr;
  lp_corpora : option pystr;
  lp_driveId : option pystr;
  lp_includeItemsFromAllDrives : bool;
  lp_supportsAllDrives : bool;
  lp_fields : pystr;
  lp_pageSize : option N;
  lp_pageToken : option pystr
}.

(** [MediaIoBaseUpload(fh, mimetype=..., resumable=...)]. *)
Record Media : Type := {
  m_body : pybytes;
  m_mimetype : pystr;
  m_resumable : bool
}.

Record UpdateParams : Type := {
  up_fileId : pystr;
  up_media_body : Media;
  up_fields : pystr;
  up_supportsAllDrives : bool
}.

Record FileMetadata : Type := {
  md_name : pystr;
  md_parents : list (option pystr);
  md_mimeType : pystr
}.

Record CreateParams : Type := {
  cp_body : FileMetadata;
  cp_media_body : Media;
  cp_fields : pystr;
  cp_supportsAllDrives : bool
}.

(** One executed API call with what it gave back. *)
Inductive event : Type :=
| EvList (p : ListParams) (r : outcome ListResponse)
| EvUpdate (p : UpdateParams) (r : outcome FileResource)
| EvCreate (p : CreateParams) (r : outcome FileResource).

Definition is_write (ev : event) : bool :=
  match ev with
  | EvList _ _ => false
  | EvUpdate _ _ | EvCreate _ _ => true
  end.

(** The client the program talks to.  [connect] is
    [google.auth.default] followed by [build('drive', 'v3', ...)]. *)
Class DriveService (St : Type) : Type := {
  connect : St -> outcome unit * St;
  files_list : ListParams -> St -> outcome ListResponse * St;
  files_update : UpdateParams -> St -> outcome FileResource * St;
  files_create : CreateParams -> St -> outcome FileResource * St
}.

(** ** The folder map: a Python dict, which keeps insertion order *)

Record Entry : Type := {
  name : pystr;
  parent : option pystr
}.

(** A Python dict with string keys, in insertion order. *)
Definition dict (V : Type) : Type := list (pystr * V).

Definition FolderMap := dict Entry.

Fixpoint dict_get {V : Type} (k : pystr) (d : dict V) : option V :=
  match d with
  | [] => None
  | (k', v) :: d' => if str_eqb k k' then Some v else dict_get k d'
  end.

(** [d[k] = v]: an existing key keeps its position, a new one goes last. *)
Fixpoint dict_set {V : Type} (k : pystr) (v : V) (d : dict V) : dict V :=
  match d with
  | [] => [(k, v)]
  | (k', v') :: d' =>
      if str_eqb k k' then (k', v) :: d' else (k', v') :: dict_set k v d'
  end.

Definition keys {V : Type} (d : dict V) : list pystr := map fst d.

(** ** Configuration read from the environment at import time *)

Record Config : Type := {
  SHARED_DRIVE_FOLDER : option pystr;
  SHARED_DRIVE_ID : option pystr
}.

(** ** build_folder_path_map: the part of the loop body that touches no
    service *)

(** [d[key]] on a resource. *)
Definition getitem (key : string) (field : option pystr) : outcome pystr :=
  match field with
  | Some v => Returned v
  | None => Raised (KeyError (lit key))
  end.

(** [folder.get('parents', [None])[0]] *)
Definition first_parent (folder : FileResource) : outcome (option pystr) :=
  let parents :=
    match f_parents folder with
    | Some l => l
    | None => [None]
    end in
  match nth_error parents 0 with
  | Some v => Returned v
  | None => Raised IndexError
  end.

(** Lines 53-54.  The right-hand side of the assignment is evaluated before
    the subscript of its target. *)
Definition add_folder (folder_map : FolderMap) (folder : FileResource)
  : outcome FolderMap :=
  obind (first_parent folder) (fun parent_id =>
  obind (getitem "name" (f_name folder)) (fun nm =>
  obind (getitem "id" (f_id folder)) (fun id =>
  Returned (dict_set id {| name := nm; parent := parent_id |} folder_map)))).

(** [for folder in folders: ...] *)
Fixpoint add_folders (folder_map : FolderMap) (folders : list FileResource)
  : outcome FolderMap :=
  match folders with
  | [] => Returned folder_map
  | folder :: rest =>
      obind (add_folder folder_map folder) (fun fm => add_folders fm rest)
  end.

Definition folder_query : pystr :=
  lit "mimeType='application/vnd.google-apps.folder' and trashed=false".

Definition folder_list_params (cfg : Config) (page_token : option pystr)
  : ListParams :=
  {| lp_q := folder_query;
     lp_corpora := Some (lit "drive");
     lp_driveId := SHARED_DRIVE_ID cfg;
     lp_includeItemsFromAllDrives := true;
     lp_supportsAllDrives := true;
     lp_fields := lit "nextPageToken, files(id, name, parents)";
     lp_pageSize := Some 1000%N;
     lp_pageToken := page_token |}.

(** [results.get('files', [])] *)
Definition get_files (results : ListResponse) : list FileResource :=
  match files results with
  | Some l => l
  | None => []
  end.

(** ** json.dumps(map_data, indent=4)

    The standard library's encoder with its defaults ([ensure_ascii=True],
    separators [','] and [': ']) on the shape the builder produces: a dict
    of dicts with the keys ['name'] and ['parent']. *)

(** [ESCAPE_DCT] and the replacement function of
    [encode_basestring_ascii]: what one character becomes. *)
Definition escape_char (c : codepoint) : pystr :=
  if (c =? 92)%N then [92; 92]%N            (* backslash *)
  else if (c =? 34)%N then [92; 34]%N       (* double quote *)
  else if (c =? 8)%N then lit "\b"
  else if (c =? 12)%N then lit "\f"
  else if (c =? 10)%N then lit "\n"
  else if (c =? 13)%N then lit "\r"
  else if (c =? 9)%N then lit "\t"
  else if ((32 <=? c) && (c <=? 126))%N then [c]
  else if (c <? 65536)%N then lit "\u" ++ hex4 c
  else
    let n := (c - 65536)%N in
    let s1 := N.lor 55296 (N.land (N.shiftr n 10) 1023) in
    let s2 := N.lor 56320 (N.land n 1023) in
    lit "\u" ++ hex4 s1 ++ lit "\u" ++ hex4 s2.

Definition escape_body (s : pystr) : pystr := flat_map escape_char s.

Definition dquote : codepoint := 34%N.

Definition encode_basestring_ascii (s : pystr) : pystr :=
  dquote :: escape_body s ++ [dquote].

Definition newline_indent (level : nat) : pystr :=
  10%N :: repeat 32%N (4 * level).

(** A value of the inner dict: a string or [None]. *)
Definition encode_opt (v : option pystr) : pystr :=
  match v with
  | Some s => encode_basestring_ascii s
  | None => lit "null"
  end.

(** The inner dict, written at nesting level 1. *)
Definition encode_entry (e : Entry) : pystr :=
  lit "{" ++ newline_indent 2
    ++ encode_basestring_ascii (lit "name") ++ lit ": "
    ++ encode_basestring_ascii (name e)
    ++ lit "," ++ newline_indent 2
    ++ encode_basestring_ascii (lit "parent") ++ lit ": "
    ++ encode_opt (parent e)
    ++ newline_indent 1 ++ lit "}".

Definition encode_item (kv : pystr * Entry) : pystr :=
  encode_basestring_ascii (fst kv) ++ lit ": " ++ encode_entry (snd kv).

(** Items after the first, each preceded by the item separator. *)
Fixpoint encode_more (items : FolderMap) : pystr :=
  match items with
  | [] => []
  | kv :: rest =>
      lit "," ++ newline_indent 1 ++ encode_item kv ++ encode_more rest
  end.

Definition json_dumps (map_data : FolderMap) : pystr :=
  match map_data with
  | [] => lit "{}"
  | kv :: rest =>
      lit "{" ++ newline_indent 1 ++ encode_item kv ++ encode_more rest
        ++ newline_indent 0 ++ lit "}"
  end.

(** ** str.encode('utf-8') *)

Definition is_surrogate (c : codepoint) : bool :=
  ((55296 <=? c) && (c <=? 57343))%N.

Fixpoint surrogate_run (s : pystr) : N :=
  match s with
  | c :: s' => if is_surrogate c then (1 + surrogate_run s')%N else 0%N
  | [] => 0%N
  end.

Definition utf8_char (c : codepoint) : pybytes :=
  if (c <? 128)%N then [c]
  else if (c <? 2048)%N then
    [N.lor 192 (N.shiftr c 6); N.lor 128 (N.land c 63)]
  else if (c <? 65536)%N then
    [N.lor 224 (N.shiftr c 12); N.lor 128 (N.land (N.shiftr c 6) 63);
     N.lor 128 (N.land c 63)]
  else
    [N.lor 240 (N.shiftr c 18); N.lor 128 (N.land (N.shiftr c 12) 63);
     N.lor 128 (N.land (N.shiftr c 6) 63); N.lor 128 (N.land c 63)].

Fixpoint utf8_encode_from (pos : N) (s : pystr) : outcome pybytes :=
  match s with
  | [] => Returned []
  | c :: s' =>
      if is_surrogate c then
        Raised (UnicodeEncodeError c pos (pos + 1 + surrogate_run s'))
      else
        obind (utf8_encode_from (pos + 1) s') (fun bs =>
        Returned (utf8_char c ++ bs))
  end.

Definition utf8_encode (s : pystr) : outcome pybytes := utf8_encode_from 0 s.

(** ** The program, against a service *)

Inductive pyval : Type :=
| VNone
| VStr (s : pystr).

Definition opt_val (o : option pystr) : pyval :=
  match o with
  | Some s => VStr s
  | None => VNone
  end.

(** What [main] returns to the framework: a dict and a status code. *)
Definition Response : Type := list (pystr * pyval) * N.

Definition search_query (filename : pystr) (folder_id : option pystr) : pystr :=
  lit "name = '" ++ filename ++ lit "' and '" ++ fmt_opt folder_id
    ++ lit "' in parents and trashed = false".

Definition search_params (filename : pystr) (folder_id : option pystr)
  : ListParams :=
  {| lp_q := search_query filename folder_id;
     lp_corpora := None;
     lp_driveId := None;
     lp_includeItemsFromAllDrives := true;
     lp_supportsAllDrives := true;
     lp_fields := lit "files(id)";
     lp_pageSize := None;
     lp_pageToken := None |}.

Definition text_plain : pystr := lit "text/plain".

Definition make_media (body : pybytes) : Media :=
  {| m_body := body; m_mimetype := text_plain; m_resumable := true |}.

Definition update_params (file_id : pystr) (media : Media) : UpdateParams :=
  {| up_fileId := file_id; up_media_body := media;
     up_fields := lit "id"; up_supportsAllDrives := true |}.

Definition create_params (filename : pystr) (folder_id : option pystr)
    (media : Media) : CreateParams :=
  {| cp_body := {| md_name := filename; md_parents := [folder_id];
                   md_mimeType := text_plain |};
     cp_media_body := media;
     cp_fields := lit "id"; cp_supportsAllDrives := true |}.

Definition map_filename : pystr := lit "folder_map.txt".

Definition success_body (file_id : option pystr) : list (pystr * pyval) :=
  [ (lit "status", VStr (lit "success"));
    (lit "message", VStr (lit "Map updated successfully"));
    (lit "file_id", opt_val file_id) ].

Definition error_body (msg : pystr) : list (pystr * pyval) :=
  [ (lit "status", VStr (lit "error")); (lit "message", VStr msg) ].

Section Program.

Context {St : Type} `{DriveService St}.

(** The state a run threads: the service and the calls made so far, in
    order. *)
Definition World : Type := St * list event.

(** A computation returns, raises, or ([None]) is still inside the
    pagination loop when the fuel is gone. *)
Definition M (A : Type) : Type := World -> option (outcome A * World).

Definition ret {A} (a : A) : M A := fun w => Some (Returned a, w).

Definition lift {A} (o : outcome A) : M A := fun w => Some (o, w).

Definition bind {A B} (m : M A) (k : A -> M B) : M B :=
  fun w =>
    match m w with
    | None => None
    | Some (Returned a, w') => k a w'
    | Some (Raised e, w') => Some (Raised e, w')
    end.

(** [try: m except Exception as e: h e]; an exception that is not an
    [Exception] passes through. *)
Definition try_except {A} (m : M A) (h : exc -> M A) : M A :=
  fun w =>
    match m w with
    | None => None
    | Some (Returned a, w') => Some (Returned a, w')
    | Some (Raised e, w') =>
        if is_Exception e then h e w' else Some (Raised e, w')
    end.

Definition do_connect : M unit :=
  fun w => let '(r, s') := connect (fst w) in Some (r, (s', snd w)).

Definition do_list (p : ListParams) : M ListResponse :=
  fun w =>
    let '(r, s') := files_list p (fst w) in
    Some (r, (s', snd w ++ [EvList p r])).

Definition do_update (p : UpdateParams) : M FileResource :=
  fun w =>
    let '(r, s') := files_update p (fst w) in
    Some (r, (s', snd w ++ [EvUpdate p r])).

Definition do_create (p : CreateParams) : M FileResource :=
  fun w =>
    let '(r, s') := files_create p (fst w) in
    Some (r, (s', snd w ++ [EvCreate p r])).

Notation "x <- m ;; k" := (bind m (fun x => k))
  (at level 61, m at next level, right associativity).

Variable cfg : Config.

(** The [while True] loop of [build_folder_path_map], one iteration per
    unit of fuel. *)
Fixpoint list_loop (fuel : nat) (folder_map : FolderMap)
    (page_token : option pystr) : M FolderMap :=
  match fuel with
  | O => fun _ => None
  | S fuel' =>
      results <- do_list (folder_list_params cfg page_token) ;;
      folder_map' <- lift (add_folders folder_map (get_files results)) ;;
      match nextPageToken results with
      | None => ret folder_map'
      | Some t => list_loop fuel' folder_map' (Some t)
      end
  end.

Definition build_folder_path_map (fuel : nat) : M FolderMap :=
  list_loop fuel [] None.

Definition upload_map_to_drive (folder_id : option pystr)
    (filename : pystr) (map_data : FolderMap) : M (option pystr) :=
  let content_str := json_dumps map_data in
  body <- lift (utf8_encode content_str) ;;
  let media := make_media body in
  search_response <- do_list (search_params filename folder_id) ;;
  match get_files search_response with
  | first :: _ =>
      file_id <- lift (getitem "id" (f_id first)) ;;
      updated_file <- do_update (update_params file_id media) ;;
      ret (f_id updated_file)
  | [] =>
      created_file <- do_create (create_params filename folder_id media) ;;
      ret (f_id created_file)
  end.

(** [GoogleDriveRPA()]: the constructor logs and re-raises. *)
Definition GoogleDriveRPA : M unit :=
  try_except do_connect (fun e => lift (Raised e)).

Definition main (fuel : nat) : M Response :=
  try_except
    (_ <- GoogleDriveRPA ;;
     gdrive_folder_map <- build_folder_path_map fuel ;;
     file_id <- upload_map_to_drive (SHARED_DRIVE_FOLDER cfg) map_filename
                  gdrive_folder_map ;;
     ret (success_body file_id, 200%N))
    (fun e => ret (error_body (py_str e), 500%N)).

End Program.

(** ** json.loads

    The standard library's decoder ([JSONDecoder.decode], [scan_once],
    [py_scanstring] in strict mode, [JSONObject], [JSONArray]) on objects,
    arrays, strings and the literals [null], [true] and [false].  The input
    is the text that remains to be read.  [None] is a [JSONDecodeError], or
    a number, which this model does not read. *)

#[local] Unset Elimination Schemes.
Inductive json : Type :=
| JNull
| JBool (b : bool)
| JStr (s : pystr)
| JArr (l : list json)
| JObj (d : dict json).
#[local] Set Elimination Schemes.

Definition is_ws (c : codepoint) : bool :=
  ((c =? 32) || (c =? 9) || (c =? 10) || (c =? 13))%N.

Fixpoint skip_ws (s : pystr) : pystr :=
  match s with
  | c :: s' => if is_ws c then skip_ws s' else s
  | [] => []
  end.

Definition hex_value (c : codepoint) : option N :=
  if ((48 <=? c) && (c <=? 57))%N then Some (c - 48)%N
  else if ((97 <=? c) && (c <=? 102))%N then Some (c - 87)%N
  else if ((65 <=? c) && (c <=? 70))%N then Some (c - 55)%N
  else None.

(** [_decode_uXXXX] on the four characters after the letter u, each of
    which has to be a hexadecimal digit. *)
Definition decode_uXXXX (a b c d : codepoint) : option N :=
  match hex_value a, hex_value b, hex_value c, hex_value d with
  | Some x3, Some x2, Some x1, Some x0 =>
      Some (4096 * x3 + 256 * x2 + 16 * x1 + x0)%N
  | _, _, _, _ => None
  end.

(** The [BACKSLASH] table. *)
Definition backslash (esc : codepoint) : option codepoint :=
  if (esc =? 34)%N then Some 34%N
  else if (esc =? 92)%N then Some 92%N
  else if (esc =? 47)%N then Some 47%N
  else if (esc =? 98)%N then Some 8%N
  else if (esc =? 102)%N then Some 12%N
  else if (esc =? 110)%N then Some 10%N
  else if (esc =? 114)%N then Some 13%N
  else if (esc =? 116)%N then Some 9%N
  else None.

Definition is_high (u : N) : bool := ((55296 <=? u) && (u <=? 56319))%N.
Definition is_low (u : N) : bool := ((56320 <=? u) && (u <=? 57343))%N.

Definition join_surrogates (uni uni2 : N) : codepoint :=
  (65536 + N.lor (N.shiftl (uni - 55296) 10) (uni2 - 56320))%N.

Definition cons_char (c : codepoint) (r : option (pystr * pystr))
  : option (pystr * pystr) :=
  match r with
  | Some (chars, rest) => Some (c :: chars, rest)
  | None => None
  end.

(** [py_scanstring], from just after the opening quote: the string read
    and the text after its closing quote. *)
Fixpoint scanstring (s : pystr) : option (pystr * pystr) :=
  match s with
  | [] => None
  | c :: r =>
      if (c =? 34)%N then Some ([], r)
      else if (c =? 92)%N then
        match r with
        | [] => None
        | esc :: r1 =>
            if (esc =? 117)%N then
              match r1 with
              | a :: b :: c' :: d :: r2 =>
                  match decode_uXXXX a b c' d with
                  | None => None
                  | Some uni =>
                      if is_high uni then
                        match r2 with
                        | b1 :: u1 :: r3 =>
                            if ((b1 =? 92) && (u1 =? 117))%N then
                              match r3 with
                              | a2 :: b2 :: c2 :: d2 :: r4 =>
                                  match decode_uXXXX a2 b2 c2 d2 with
                                  | None => None
                                  | Some uni2 =>
                                      if is_low uni2 then
                                        cons_char (join_surrogates uni uni2)
                                          (scanstring r4)
                                      else cons_char uni (scanstring r2)
                                  end
                              | _ => None
                              end
                            else cons_char uni (scanstring r2)
                        | _ => cons_char uni (scanstring r2)
                        end
                      else cons_char uni (scanstring r2)
                  end
              | _ => None
              end
            else
              match backslash esc with
              | Some ch => cons_char ch (scanstring r1)
              | None => None
              end
        end
      else if (c <? 32)%N then None
      else cons_char c (scanstring r)
  end.

(** [dict(pairs)]: later pairs overwrite earlier ones. *)
Definition dict_of_pairs {V : Type} (pairs : list (pystr * V)) : dict V :=
  fold_left (fun d kv => dict_set (fst kv) (snd kv) d) pairs [].

(** The loop of [JSONObject], from just after the opening quote of a
    key. *)
Fixpoint object_loop (scan : pystr -> option (json * pystr)) (fuel : nat)
    (pairs : list (pystr * json)) (s : pystr) : option (json * pystr) :=
  match fuel with
  | O => None
  | S fuel' =>
      match scanstring s with
      | None => None
      | Some (key, s1) =>
          match skip_ws s1 with
          | c :: s2 =>
              if (c =? 58)%N then
                match scan (skip_ws s2) with
                | None => None
                | Some (value, s3) =>
                    let pairs' := pairs ++ [(key, value)] in
                    match skip_ws s3 with
                    | d :: s4 =>
                        if (d =? 125)%N then
                          Some (JObj (dict_of_pairs pairs'), s4)
                        else if (d =? 44)%N then
                          match skip_ws s4 with
                          | q :: s5 =>
                              if (q =? 34)%N
                              then object_loop scan fuel' pairs' s5
                              else None
                          | [] => None
                          end
                        else None
                    | [] => None
                    end
                end
              else None
          | [] => None
          end
      end
  end.

(** The loop of [JSONArray], at the start of an element. *)
Fixpoint array_loop (scan : pystr -> option (json * pystr)) (fuel : nat)
    (values : list json) (s : pystr) : option (json * pystr) :=
  match fuel with
  | O => None
  | S fuel' =>
      match scan s with
      | None => None
      | Some (value, s1) =>
          let values' := values ++ [value] in
          match skip_ws s1 with
          | c :: s2 =>
              if (c =? 93)%N then Some (JArr values', s2)
              else if (c =? 44)%N
              then array_loop scan fuel' values' (skip_ws s2)
              else None
          | [] => None
          end
      end
  end.

Definition starts_with (p s : pystr) : option pystr :=
  if str_eqb p (firstn (List.length p) s) then Some (skipn (List.length p) s)
  else None.

Fixpoint scan_once (fuel : nat) (s : pystr) : option (json * pystr) :=
  match fuel with
  | O => None
  | S fuel' =>
      match s with
      | [] => None
      | c :: r =>
          if (c =? 34)%N then
            match scanstring r with
            | Some (str, rest) => Some (JStr str, rest)
            | None => None
            end
          else if (c =? 123)%N then
            match skip_ws r with
            | d :: r' =>
                if (d =? 125)%N then Some (JObj [], r')
                else if (d =? 34)%N
                then object_loop (scan_once fuel') fuel' [] r'
                else None
            | [] => None
            end
          else if (c =? 91)%N then
            match skip_ws r with
            | d :: r' =>
                if (d =? 93)%N then Some (JArr [], r')
                else array_loop (scan_once fuel') fuel' [] (d :: r')
            | [] => None
            end
          else
            match starts_with (lit "null") s with
            | Some rest => Some (JNull, rest)
            | None =>
                match starts_with (lit "true") s with
                | Some rest => Some (JBool true, rest)
                | None =>
                    match starts_with (lit "false") s with
                    | Some rest => Some (JBool false, rest)
                    | None => None
                    end
                end
            end
      end
  end.

(** [json.loads(text)]: one value between optional whitespace, and nothing
    after it.  The recursion is given the length of the text as fuel. *)
Definition json_loads (text : pystr) : option json :=
  match scan_once (S (List.length text)) (skip_ws text) with
  | Some (obj, rest) =>
      match skip_ws rest with
      | [] => Some obj
      | _ :: _ => None
      end
  | None => None
  end.

(** The Python value that a folder map is: a dict of dicts. *)
Definition opt_json (v : option pystr) : json :=
  match v with
  | Some s => JStr s
  | None => JNull
  end.

Definition entry_value (e : Entry) : json :=
  JObj [ (lit "name", JStr (name e)); (lit "parent", opt_json (parent e)) ].

Definition folder_map_value (m : FolderMap) : json :=
  JObj (map (fun kv => (fst kv, entry_value (snd kv))) m).

(** JSON text: code points of the Unicode range, with no high surrogate
    directly before a low one.  A string that was read from a JSON document
    is of this kind, since the decoder joins such a pair into one
    character. *)
Fixpoint json_text (s : pystr) : bool :=
  match s with
  | [] => true
  | c :: s' =>
      (c <? 1114112)%N
      && match s' with
         | c' :: _ => negb (is_high c && is_low c')
         | [] => true
         end
      && json_text s'
  end.

Definition json_text_opt (v : option pystr) : bool :=
  match v with
  | Some s => json_text s
  | None => true
  end.

Definition json_text_map (m : FolderMap) : bool :=
  forallb (fun kv => json_text (fst kv) && json_text (name (snd kv))
                     && json_text_opt (parent (snd kv))) m.

(** ** What the service answers to the paginated listing

    These describe the service, not the program: the pages it serves to the
    requests of [build_folder_path_map], each request carrying the cursor of
    the page before. *)

Section Listing.

Context {St : Type} `{DriveService St}.
Variable cfg : Config.

(** [listing s tok pages s']: asked from state [s] with cursor [tok], the
    service serves [pages], the last of which is the first without a
    continuation cursor, and is then in state [s']. *)
Inductive listing : St -> option pystr -> list ListResponse -> St -> Prop :=
| listing_last s tok r s' :
    files_list (folder_list_params cfg tok) s = (Returned r, s') ->
    nextPageToken r = None ->
    listing s tok [r] s'
| listing_more s tok r s1 t rs s' :
    files_list (folder_list_params cfg tok) s = (Returned r, s1) ->
    nextPageToken r = Some t ->
    listing s1 (Some t) rs s' ->
    listing s tok (r :: rs) s'.

(** [listing_fails s tok pages e s']: the service serves [pages], all with
    a continuation cursor, and raises [e] at the request after them. *)
Inductive listing_fails
  : St -> option pystr -> list ListResponse -> exc -> St -> Prop :=
| fails_now s tok e s' :
    files_list (folder_list_params cfg tok) s = (Raised e, s') ->
    listing_fails s tok [] e s'
| fails_later s tok r s1 t rs e s' :
    files_list (folder_list_params cfg tok) s = (Returned r, s1) ->
    nextPageToken r = Some t ->
    listing_fails s1 (Some t) rs e s' ->
    listing_fails s tok (r :: rs) e s'.

(** The next [n] listing requests are all answered with a page that has a
    continuation cursor. *)
Fixpoint cursors (n : nat) (s : St) (tok : option pystr) : Prop :=
  match n with
  | O => True
  | S n' =>
      exists r s' t,
        files_list (folder_list_params cfg tok) s = (Returned r, s')
        /\ nextPageToken r = Some t
        /\ cursors n' s' (Some t)
  end.

(** The trace of a finished listing. *)
Fixpoint listing_events (tok : option pystr) (pages : list ListResponse)
  : list event :=
  match pages with
  | [] => []
  | r :: rs =>
      EvList (folder_list_params cfg tok) (Returned r)
        :: listing_events (nextPageToken r) rs
  end.

End Listing.

(** All records of a listing, in the order the builder visits them. *)
Definition all_folders (pages : list ListResponse) : list FileResource :=
  flat_map get_files pages.

(** A record the builder can index: it has an id and a name, and its
    [parents], when present, is not the empty list. *)
Definition indexable (folder : FileResource) : bool :=
  match f_id folder, f_name folder, f_parents folder with
  | Some _, Some _, Some [] => false
  | Some _, Some _, _ => true
  | _, _, _ => false
  end.

(** ** A recorded session

    A service that replays recorded answers: one list of answers for
    [files().list] calls and one for the write calls, each consumed in
    order. *)

Record Session : Type := {
  on_connect : outcome unit;
  list_answers : list (outcome ListResponse);
  write_answers : list (outcome FileResource)
}.

Definition no_answer {A : Type} : outcome A :=
  Raised (ServiceError (lit "no recorded answer")).

Definition session_list (s : Session) : outcome ListResponse * Session :=
  match list_answers s with
  | r :: rest =>
      (r, {| on_connect := on_connect s; list_answers := rest;
             write_answers := write_answers s |})
  | [] => (no_answer, s)
  end.

Definition session_write (s : Session) : outcome FileResource * Session :=
  match write_answers s with
  | r :: rest =>
      (r, {| on_connect := on_connect s; list_answers := list_answers s;
             write_answers := rest |})
  | [] => (no_answer, s)
  end.

#[export] Instance session_service : DriveService Session := {|
  connect := fun s => (on_connect s, s);
  files_list := fun _ s => session_list s;
  files_update := fun _ s => session_write s;
  files_create := fun _ s => session_write s
|}.

(** ** A reference drive *)

Record StoredFile : Type := {
  sf_id : pystr;
  sf_name : pystr;
  sf_parents : list pystr;
  sf_mimeType : pystr;
  sf_content : pybytes;
  sf_trashed : bool
}.

(** Modelled from the spec: the storage provider's list, create and update
    calls (sections 4.2 and 6), which are not part of this repository.  The
    drive is the list of its files.  The provider reads the filter text it
    is sent and answers with the files that meet every term of it; an
    update replaces the content of the file with the given id and answers
    with that id; a create stores a new file under an id no stored file has
    and answers with it. *)
Definition Drive : Type := list StoredFile.

(** Modelled from the spec: the terms of a filter. *)
Inductive Term : Type :=
| NameIs (n : pystr)
| MimeTypeIs (t : pystr)
| InParents (p : pystr)
| NotTrashed.

(** Modelled from the spec: the provider reads a quoted text up to its
    closing quote; a backslash makes the next character part of the
    text.  The result is the text and what follows the closing quote. *)
Fixpoint read_quoted (s : pystr) : option (pystr * pystr) :=
  match s with
  | [] => None
  | c :: r =>
      if (c =? 39)%N then Some ([], r)
      else if (c =? 92)%N then
        match r with
        | [] => None
        | c' :: r' =>
            match read_quoted r' with
            | Some (t, rest) => Some (c' :: t, rest)
            | None => None
            end
        end
      else
        match read_quoted r with
        | Some (t, rest) => Some (c :: t, rest)
        | None => None
        end
  end.

(** Modelled from the spec: a term that starts with a field name. *)
Definition read_field_term (s : pystr) : option (Term * pystr) :=
  match starts_with (lit "name = '") s, starts_with (lit "name='") s with
  | Some r, _ | None, Some r =>
      match read_quoted r with
      | Some (n, rest) => Some (NameIs n, rest)
      | None => None
      end
  | None, None =>
      match starts_with (lit "mimeType = '") s,
            starts_with (lit "mimeType='") s with
      | Some r, _ | None, Some r =>
          match read_quoted r with
          | Some (t, rest) => Some (MimeTypeIs t, rest)
          | None => None
          end
      | None, None =>
          match starts_with (lit "trashed = false") s,
                starts_with (lit "trashed=false") s with
          | Some rest, _ | None, Some rest => Some (NotTrashed, rest)
          | None, None => None
          end
      end
  end.

(** Modelled from the spec: one term at the start of a filter text; a term
    that starts with a quoted text asks for a parent. *)
Definition read_term (s : pystr) : option (Term * pystr) :=
  match s with
  | [] => None
  | c :: r =>
      if (c =? 39)%N then
        match read_quoted r with
        | Some (p, rest) =>
            match starts_with (lit " in parents") rest with
            | Some rest' => Some (InParents p, rest')
            | None => None
            end
        | None => None
        end
      else read_field_term s
  end.

(** Modelled from the spec: a filter is a sequence of terms joined by
    [and]. *)
Fixpoint read_terms (fuel : nat) (s : pystr) : option (list Term) :=
  match fuel with
  | O => None
  | S fuel' =>
      match read_term s with
      | None => None
      | Some (t, []) => Some [t]
      | Some (t, rest) =>
          match starts_with (lit " and ") rest with
          | Some rest' =>
              match read_terms fuel' rest' with
              | Some ts => Some (t :: ts)
              | None => None
              end
          | None => None
          end
      end
  end.

(** Modelled from the spec: the provider reads the whole filter text. *)
Definition read_filter (q : pystr) : option (list Term) :=
  read_terms (S (List.length q)) q.

(** Modelled from the spec: a file meets a term when its name, or its media
    type, exactly equals the text, when the container is one of its
    parents, or when it is not trashed. *)
Definition satisfies (f : StoredFile) (t : Term) : bool :=
  match t with
  | NameIs n => str_eqb (sf_name f) n
  | MimeTypeIs t => str_eqb (sf_mimeType f) t
  | InParents p => existsb (str_eqb p) (sf_parents f)
  | NotTrashed => negb (sf_trashed f)
  end.

Definition project (fields : pystr) (f : StoredFile) : FileResource :=
  if str_eqb fields (lit "files(id)") then
    {| f_id := Some (sf_id f); f_name := None; f_parents := None |}
  else
    {| f_id := Some (sf_id f); f_name := Some (sf_name f);
       f_parents := match sf_parents f with
                    | [] => None
                    | ps => Some (map Some ps)
                    end |}.

(** Modelled from the spec: the provider's list call: the files that meet
    every term of the filter, on one page; a filter it cannot read is an
    error. *)
Definition drive_list (p : ListParams) (s : Drive)
  : outcome ListResponse * Drive :=
  match read_filter (lp_q p) with
  | Some terms =>
      (Returned {| files := Some (map (project (lp_fields p))
                                     (filter (fun f => forallb (satisfies f) terms)
                                        s));
                   nextPageToken := None |}, s)
  | None => (Raised (ServiceError (lit "Invalid query")), s)
  end.

Definition has_id (id : pystr) (f : StoredFile) : bool := str_eqb id (sf_id f).

Definition set_content (media : Media) (f : StoredFile) : StoredFile :=
  {| sf_id := sf_id f; sf_name := sf_name f; sf_parents := sf_parents f;
     sf_mimeType := m_mimetype media; sf_content := m_body media;
     sf_trashed := sf_trashed f |}.

Definition only_id (id : pystr) : FileResource :=
  {| f_id := Some id; f_name := None; f_parents := None |}.

(** What an update of [id] does to one stored file. *)
Definition touch (id : pystr) (media : Media) (f : StoredFile) : StoredFile :=
  if has_id id f then set_content media f else f.

(** Modelled from the spec: the provider's update call. *)
Definition drive_update (p : UpdateParams) (s : Drive)
  : outcome FileResource * Drive :=
  if existsb (has_id (up_fileId p)) s then
    (Returned (only_id (up_fileId p)),
     map (touch (up_fileId p) (up_media_body p)) s)
  else
    (Raised (ServiceError (lit "File not found: " ++ up_fileId p)), s).

(** An id longer than every id in use. *)
Definition fresh_id (s : Drive) : pystr :=
  repeat 102%N (S (fold_right (fun f n => Nat.max (List.length (sf_id f)) n) O s)).

Fixpoint all_some {A : Type} (l : list (option A)) : option (list A) :=
  match l with
  | [] => Some []
  | Some a :: l' =>
      match all_some l' with
      | Some r => Some (a :: r)
      | None => None
      end
  | None :: _ => None
  end.

(** Modelled from the spec: the provider's create call. *)
Definition drive_create (p : CreateParams) (s : Drive)
  : outcome FileResource * Drive :=
  match all_some (md_parents (cp_body p)) with
  | None => (Raised (ServiceError (lit "Invalid parent")), s)
  | Some ps =>
      let id := fresh_id s in
      (Returned (only_id id),
       s ++ [ {| sf_id := id; sf_name := md_name (cp_body p);
                 sf_parents := ps;
                 sf_mimeType := md_mimeType (cp_body p);
                 sf_content := m_body (cp_media_body p);
                 sf_trashed := false |} ])
  end.

#[export] Instance drive_service : DriveService Drive := {|
  connect := fun s => (Returned tt, s);
  files_list := drive_list;
  files_update := drive_update;
  files_create := drive_create
|}.

(** The file [f] is a map file of the container: it has the target name,
    the container is one of its parents, and it is not trashed. *)
Definition named_in (filename folder_id : pystr) (f : StoredFile) : bool :=
  str_eqb (sf_name f) filename
  && existsb (str_eqb folder_id) (sf_parents f)
  && negb (sf_trashed f).

(** A text without quote and without backslash. *)
Definition plain (s : pystr) : bool :=
  forallb (fun c => negb (c =? 39)%N && negb (c =? 92)%N) s.

(** ** A service whose listing never ends

    Every page it serves has a continuation cursor. *)

Inductive Endless : Type := endless.

#[export] Instance endless_service : DriveService Endless := {|
  connect := fun s => (Returned tt, s);
  files_list := fun _ s =>
    (Returned {| files := Some []; nextPageToken := Some (lit "next") |}, s);
  files_update := fun _ s => (Raised (ServiceError (lit "no such file")), s);
  files_create := fun _ s => (Raised (ServiceError (lit "no such file")), s)
|}.

(** ** Names for the steps of a run *)

(** The media object of an upload of [m], once the text is encoded. *)
Definition media_of (m : FolderMap) : Media := make_media (json_dumps m).

(** What the publisher returns after its write call. *)
Definition write_result (r : outcome FileResource) : outcome (option pystr) :=
  match r with
  | Returned file => Returned (f_id file)
  | Raised e => Raised e
  end.

(** What the handler of the entry point makes of an exception raised in
    the world [w]. *)
Definition handled {W : Type} (e : exc) (w : W)
  : option (outcome Response * W) :=
  if is_Exception e then Some (Returned (error_body (py_str e), 500%N), w)
  else Some (Raised e, w).

(** ** Names used by the round-trip proof *)

(** After the escape of a high surrogate, the text [t] does not go on with
    the escape of a low one (nor with a broken escape), so the decoder
    keeps the high surrogate as a character of its own. *)
Definition after_high_ok (t : pystr) : Prop :=
  match t with
  | b1 :: u1 :: r3 =>
      if ((b1 =? 92) && (u1 =? 117))%N then
        match r3 with
        | a :: b :: c :: d :: _ =>
            match decode_uXXXX a b c d with
            | Some u => is_low u = false
            | None => False
            end
        | _ => False
        end
      else True
  | _ => True
  end.

(** A character of a JSON document that was decoded from UTF-8: in the
    Unicode range and not a surrogate. *)
Definition raw_ok (c : codepoint) : bool :=
  (c <? 1114112)%N && negb (is_surrogate c).

(** The text starts with the escape of a low surrogate. *)
Definition starts_low_escape (s : pystr) : Prop :=
  exists a b c d r uni,
    s = 92%N :: 117%N :: a :: b :: c :: d :: r
    /\ decode_uXXXX a b c d = Some uni /\ is_low uni = true.

(** What the decoder reads from [s] is JSON text, and it starts with a low
    surrogate only if [s] starts with the escape of one. *)
Definition decoded_ok (s : pystr) : Prop :=
  forall str rest,
    scanstring s = Some (str, rest) ->
    json_text str = true
    /\ (forall c' tl, str = c' :: tl -> is_low c' = true -> starts_low_escape s).

Definition item_value (kv : pystr * Entry) : pystr * json :=
  (fst kv, entry_value (snd kv)).

(** A folder whose name is a high surrogate directly followed by a low
    one. *)
Definition map_split_pair : FolderMap :=
  [ (lit "a", {| name := [55357; 56832]%N; parent := None |}) ].

(** A map of three folders, one of them with a name outside ASCII. *)
Definition map_abc : FolderMap :=
  [ (lit "a", {| name := [196; 98; 8364; 128512]%N; parent := None |});
    (lit "b", {| name := lit "B"; parent := Some (lit "a") |});
    (lit "c", {| name := lit "C"; parent := Some (lit "b") |}) ].

(** ** Sample data used by the examples below *)

Definition cfg0 : Config :=
  {| SHARED_DRIVE_FOLDER := Some (lit "folder-1");
     SHARED_DRIVE_ID := Some (lit "drive-1") |}.

Definition record (id nm : string) (parents : option (list (option pystr)))
  : FileResource :=
  {| f_id := Some (lit id); f_name := Some (lit nm); f_parents := parents |}.

Definition page (fs : list FileResource) (next : option pystr)
  : outcome ListResponse :=
  Returned {| files := Some fs; nextPageToken := next |}.

Definition session (lists : list (outcome ListResponse))
    (writes : list (outcome FileResource)) : Session :=
  {| on_connect := Returned tt; list_answers := lists;
     write_answers := writes |}.

(** One page whose only record has a parents list that is present and
    empty. *)
Definition session_empty_parents : Session :=
  session [ page [ record "a" "A" (Some []) ] None ] [].

(** Two pages; the record on the second has an empty parents list. *)
Definition session_second_page_empty_parents : Session :=
  session [ page [ record "a" "A" (Some [Some (lit "root")]) ]
              (Some (lit "t1"));
            page [ record "b" "B" (Some []) ] None ] [].

Definition record_b : FileResource :=
  record "b" "B" (Some [Some (lit "a"); Some (lit "x")]).

Definition pages_abc : list ListResponse :=
  [ {| files := Some [ record "a" "A" None; record_b ];
       nextPageToken := Some (lit "t1") |};
    {| files := Some [ record "c" "C" (Some [Some (lit "b")]) ];
       nextPageToken := None |} ].

(** Two pages of well-formed records, no map file yet, and a create that
    answers with an id. *)
Definition session_abc : Session :=
  session (map (@Returned ListResponse) pages_abc
             ++ [ page [] None ])
          [ Returned (only_id (lit "file-1")) ].

Definition is_ascii (s : pystr) : bool := forallb (fun c => (c <? 128)%N) s.

(** A map file is found, and the update answers without an id. *)
Definition session_update_without_id : Session :=
  session [ page [ {| f_id := Some (lit "X"); f_name := None;
                      f_parents := None |} ] None ]
          [ Returned {| f_id := None; f_name := None; f_parents := None |} ].

(** One page with a cursor, then the listing fails. *)
Definition session_listing_fails : Session :=
  session [ page [ record "a" "A" None ] (Some (lit "t1"));
            Raised (ServiceError (lit "quota exceeded")) ]
          [ Returned (only_id (lit "file-1")) ].

(** An empty drive without a map file. *)
Definition session_empty_drive : Session :=
  session [ page [] None; page [] None ]
          [ Returned (only_id (lit "file-1")) ].

(** A drive with one folder and no map file, where the create answers
    without an id. *)
Definition session_create_without_id : Session :=
  session [ page [ record "a" "A" None ] None; page [] None ]
          [ Returned {| f_id := None; f_name := None; f_parents := None |} ].

(** ** Names and sample data for the further properties *)

(** The entry [kv] is the one the builder writes for the record [folder]:
    its key is the record's id, its name the record's name and its parent
    what [first_parent] gives. *)
Definition entry_from (folder : FileResource) (kv : pystr * Entry) : Prop :=
  f_id folder = Some (fst kv)
  /\ f_name folder = Some (name (snd kv))
  /\ first_parent folder = Returned (parent (snd kv)).

(** A request of the paginated folder listing. *)
Definition folder_listing_call (cfg : Config) (ev : event) : Prop :=
  exists tok r, ev = EvList (folder_list_params cfg tok) r.

(** The folder a is listed on both pages, with different names and
    parents. *)
Definition session_duplicate_id : Session :=
  session [ page [ record "a" "Old" (Some [Some (lit "x"); Some (lit "y")]);
                   record "b" "B" None ] (Some (lit "t1"));
            page [ record "a" "New" None ] None ] [].

Definition pages_duplicate_id : list ListResponse :=
  [ {| files := Some [ record "a" "Old" (Some [Some (lit "x"); Some (lit "y")]);
                       record "b" "B" None ];
       nextPageToken := Some (lit "t1") |};
    {| files := Some [ record "a" "New" None ]; nextPageToken := None |} ].

(** A record with neither name nor id, between a good record and one with
    an empty parents list. *)
Definition record_without_name : FileResource :=
  {| f_id := None; f_name := None; f_parents := Some [Some (lit "p")] |}.

Definition pages_without_name : list ListResponse :=
  [ {| files := Some [ record "a" "A" None; record_without_name;
                       record "c" "C" (Some []) ];
       nextPageToken := None |} ].

Definition session_without_name : Session :=
  session (map (@Returned ListResponse) pages_without_name) [].

(** The credentials cannot be resolved. *)
Definition session_connect_fails : Session :=
  {| on_connect := Raised (ServiceError (lit "no credentials"));
     list_answers := []; write_answers := [] |}.

(** An empty drive without a map file, where the create fails. *)
Definition session_create_fails : Session :=
  session [ page [] None; page [] None ]
          [ Raised (ServiceError (lit "storage quota exceeded")) ].

(** The map of the listing [pages_abc]. *)
Definition map_listed_abc : FolderMap :=
  [ (lit "a", {| name := lit "A"; parent := None |});
    (lit "b", {| name := lit "B"; parent := Some (lit "a") |});
    (lit "c", {| name := lit "C"; parent := Some (lit "b") |}) ].

(** [session_abc] once its listing has been read. *)
Definition session_abc_read : Session :=
  session [ page [] None ] [ Returned (only_id (lit "file-1")) ].

(** The requests of the builder, as the source writes them: each carries
    the cursor that the answer before it gave, the first carries none; a
    request that raised, or was answered without a cursor, is the last. *)
Fixpoint cursor_chain (cfg : Config) (tok : option pystr)
    (calls : list event) : Prop :=
  match calls with
  | [] => True
  | ev :: rest =>
      exists r,
        ev = EvList
               {| lp_q := lit "mimeType='application/vnd.google-apps.folder' and trashed=false";
                  lp_corpora := Some (lit "drive");
                  lp_driveId := SHARED_DRIVE_ID cfg;
                  lp_includeItemsFromAllDrives := true;
                  lp_supportsAllDrives := true;
                  lp_fields := lit "nextPageToken, files(id, name, parents)";
                  lp_pageSize := Some 1000%N;
                  lp_pageToken := tok |} r
        /\ match r with
           | Returned resp =>
               match nextPageToken resp with
               | Some t => cursor_chain cfg (Some t) rest
               | None => rest = []
               end
           | Raised _ => rest = []
           end
  end.

(** The process is told to exit while the first listing request is in
    progress. *)
Definition session_exit : Session :=
  session [ Raised (SystemExit (lit "1")) ] [].

Unset Implicit Arguments.

(** * Properties *)

(** ** Strings and dicts *)

Lemma str_eqb_eq (a b : pystr) : str_eqb a b = true <-> a = b.
Proof.
  revert b; induction a as [|x a IH]; intros [|y b]; simpl;
    try (split; [discriminate | discriminate]); [tauto|].
  rewrite andb_true_iff, N.eqb_eq, IH.
  split; [intros [-> ->]; reflexivity | intros E; injection E; auto].
Qed.

Lemma str_eqb_refl (a : pystr) : str_eqb a a = true.
Proof. apply str_eqb_eq; reflexivity. Qed.

Lemma str_eqb_neq (a b : pystr) : str_eqb a b = false <-> a <> b.
Proof.
  rewrite <- str_eqb_eq. destruct (str_eqb a b); split; congruence.
Qed.

Lemma opt_str_eq_dec (a b : option pystr) : {a = b} + {a <> b}.
Proof. decide equality. apply (list_eq_dec N.eq_dec). Qed.

Section Dict.

Variable V : Type.
Implicit Types (d : dict V) (k : pystr) (v : V).

Lemma dict_get_set_same k v d : dict_get k (dict_set k v d) = Some v.
Proof.
  induction d as [|[k' v'] d IH]; simpl.
  - now rewrite str_eqb_refl.
  - destruct (str_eqb k k') eqn:E; simpl; rewrite E; auto.
Qed.

Lemma dict_get_set_other k k' v d :
  k' <> k -> dict_get k' (dict_set k v d) = dict_get k' d.
Proof.
  intros N. induction d as [|[k1 v1] d IH]; simpl.
  - apply str_eqb_neq in N. now rewrite N.
  - destruct (str_eqb k k1) eqn:E; simpl; [|now rewrite IH].
    apply str_eqb_eq in E; subst k1.
    apply str_eqb_neq in N. now rewrite N.
Qed.

Lemma keys_dict_set k v d :
  forall k', In k' (keys (dict_set k v d)) <-> k' = k \/ In k' (keys d).
Proof.
  intros k'. induction d as [|[k1 v1] d IH]; simpl.
  - intuition.
  - destruct (str_eqb k k1) eqn:E; simpl.
    + apply str_eqb_eq in E; subst k1. intuition.
    + unfold keys in IH. rewrite IH. intuition.
Qed.

Lemma dict_set_fresh k v d :
  ~ In k (keys d) -> dict_set k v d = d ++ [(k, v)].
Proof.
  induction d as [|[k1 v1] d IH]; simpl; intros N; [reflexivity|].
  destruct (str_eqb k k1) eqn:E.
  - apply str_eqb_eq in E. subst. tauto.
  - rewrite IH; tauto.
Qed.

Lemma NoDup_keys_dict_set k v d :
  NoDup (keys d) -> NoDup (keys (dict_set k v d)).
Proof.
  induction d as [|[k1 v1] d IH]; simpl; intros ND.
  - constructor; [intros []|constructor].
  - inversion ND as [|? ? Hn Hd]; subst.
    destruct (str_eqb k k1) eqn:E; simpl.
    + constructor; assumption.
    + constructor; [|apply IH; assumption].
      intros Hin. apply (keys_dict_set k v d) in Hin.
      destruct Hin as [->|Hin]; [|tauto].
      now rewrite str_eqb_refl in E.
Qed.

Lemma dict_get_in_keys k d :
  In k (keys d) <-> exists v, dict_get k d = Some v.
Proof.
  induction d as [|[k1 v1] d IH]; simpl.
  - split; [tauto | intros [? ?]; discriminate].
  - destruct (str_eqb k k1) eqn:E.
    + apply str_eqb_eq in E; subst. split; eauto.
    + apply str_eqb_neq in E. unfold keys in IH. rewrite <- IH.
      split; [intros [?|?]; [congruence | assumption] | tauto].
Qed.

End Dict.

(** ** The loop body of the builder *)

Lemma first_parent_absent (folder : FileResource) :
  f_parents folder = None -> first_parent folder = Returned None.
Proof. unfold first_parent. intros ->. reflexivity. Qed.

Lemma first_parent_empty (folder : FileResource) :
  f_parents folder = Some [] -> first_parent folder = Raised IndexError.
Proof. unfold first_parent. intros ->. reflexivity. Qed.

Lemma first_parent_cons (folder : FileResource) p ps :
  f_parents folder = Some (p :: ps) -> first_parent folder = Returned p.
Proof. unfold first_parent. intros ->. reflexivity. Qed.

Lemma add_folder_empty_parents (fm : FolderMap) (folder : FileResource) :
  f_parents folder = Some [] -> add_folder fm folder = Raised IndexError.
Proof.
  intros E. unfold add_folder. now rewrite (first_parent_empty _ E).
Qed.

Lemma add_folder_indexable (fm : FolderMap) (folder : FileResource) :
  indexable folder = true ->
  exists i n p,
    f_id folder = Some i /\ f_name folder = Some n
    /\ first_parent folder = Returned p
    /\ add_folder fm folder
       = Returned (dict_set i {| name := n; parent := p |} fm).
Proof.
  unfold indexable, add_folder, first_parent.
  destruct folder as [[i|] [n|] [[|p ps]|]]; simpl; try discriminate;
    intros _; do 3 eexists; repeat split.
Qed.

Lemma add_folder_returned (fm m : FolderMap) (folder : FileResource) :
  add_folder fm folder = Returned m -> indexable folder = true.
Proof.
  unfold indexable, add_folder, first_parent.
  destruct folder as [[i|] [n|] [[|p ps]|]]; simpl; congruence.
Qed.

Lemma add_folders_app (fm : FolderMap) (xs ys : list FileResource) :
  add_folders fm (xs ++ ys)
  = obind (add_folders fm xs) (fun m => add_folders m ys).
Proof.
  revert fm; induction xs as [|x xs IH]; intros fm; simpl; [reflexivity|].
  destruct (add_folder fm x); simpl; auto.
Qed.

Lemma add_folders_total (fm : FolderMap) (fs : list FileResource) :
  forallb indexable fs = true -> exists m, add_folders fm fs = Returned m.
Proof.
  revert fm; induction fs as [|f fs IH]; intros fm; simpl.
  - eauto.
  - rewrite andb_true_iff. intros [Hf Hfs].
    destruct (add_folder_indexable fm f Hf) as (i & n & p & _ & _ & _ & ->).
    simpl. apply IH, Hfs.
Qed.

Lemma add_folders_returned (fm m : FolderMap) (fs : list FileResource) :
  add_folders fm fs = Returned m -> forallb indexable fs = true.
Proof.
  revert fm; induction fs as [|f fs IH]; intros fm; simpl; [reflexivity|].
  destruct (add_folder fm f) as [fm'|e] eqn:E; simpl; [|discriminate].
  intros R. rewrite (add_folder_returned _ _ _ E). simpl. eapply IH, R.
Qed.

Lemma add_folders_keys (fm m : FolderMap) (fs : list FileResource) :
  add_folders fm fs = Returned m ->
  (NoDup (keys fm) -> NoDup (keys m))
  /\ forall k, In k (keys m) <-> In k (keys fm) \/ In (Some k) (map f_id fs).
Proof.
  revert fm; induction fs as [|f fs IH]; intros fm; simpl.
  - intros [= ->]. split; [auto | intros k; tauto].
  - destruct (add_folder fm f) as [fm'|e] eqn:E; simpl; [|discriminate].
    intros R. destruct (IH _ R) as [ND KS].
    destruct (add_folder_indexable fm f (add_folder_returned _ _ _ E))
      as (i & n & p & Hi & _ & _ & E').
    rewrite E' in E. injection E as <-.
    split.
    + intros H0. apply ND, NoDup_keys_dict_set, H0.
    + intros k. rewrite KS, keys_dict_set, Hi.
      split; [intros [[->|?]|?] | intros [?|[[= ->]|?]]]; auto.
Qed.

Lemma add_folders_get_other (fm m : FolderMap) (fs : list FileResource) i :
  ~ In (Some i) (map f_id fs) ->
  add_folders fm fs = Returned m ->
  dict_get i m = dict_get i fm.
Proof.
  revert fm; induction fs as [|g fs IH]; simpl; intros fm Hnone.
  - intros [= <-]. reflexivity.
  - destruct (add_folder fm g) as [d'|] eqn:Eg; simpl; [|discriminate].
    intros R. rewrite (IH d'); [|tauto|exact R].
    destruct (add_folder_indexable fm g (add_folder_returned _ _ _ Eg))
      as (j & n' & p' & Hj & _ & _ & E').
    rewrite E' in Eg. injection Eg as <-.
    apply dict_get_set_other. intros ->. apply Hnone. left. exact Hj.
Qed.

(** The entry of a key is the one written for the last record with that
    id; when only one record has the id, it is that record's. *)
Lemma add_folders_get (fm m : FolderMap) (fs : list FileResource)
    (folder : FileResource) i n p :
  add_folders fm fs = Returned m ->
  In folder fs ->
  f_id folder = Some i -> f_name folder = Some n ->
  first_parent folder = Returned p ->
  (forall other, In other fs -> f_id other = Some i -> other = folder) ->
  dict_get i m = Some {| name := n; parent := p |}.
Proof.
  revert fm; induction fs as [|f fs IH]; intros fm; simpl; [tauto|].
  destruct (add_folder fm f) as [fm'|e] eqn:E; simpl; [|discriminate].
  intros R Hin Hi Hn Hp Huniq.
  destruct (in_dec opt_str_eq_dec
              (Some i) (map f_id fs)) as [Hlater|Hnone].
  - apply in_map_iff in Hlater. destruct Hlater as (g & Hg & Hgin).
    assert (g = folder) by (apply Huniq; auto). subst g.
    apply (IH fm'); auto.
  - destruct Hin as [->|Hin];
      [|exfalso; apply Hnone, in_map_iff; exists folder; auto].
    unfold add_folder in E. rewrite Hp, Hn, Hi in E. simpl in E.
    injection E as <-.
    rewrite (add_folders_get_other _ _ _ _ Hnone R).
    apply dict_get_set_same.
Qed.

(** ** The pagination loop *)

Ltac unfold_run :=
  unfold bind, lift, ret, do_list, do_update, do_create, do_connect; simpl.

Section LoopFacts.

Context {St : Type} `{DriveService St}.
Variable cfg : Config.

Lemma list_loop_step fuel fm tok s tr r s1 :
  files_list (folder_list_params cfg tok) s = (Returned r, s1) ->
  list_loop cfg (S fuel) fm tok (s, tr)
  = match add_folders fm (get_files r) with
    | Returned fm' =>
        match nextPageToken r with
        | None =>
            Some (Returned fm',
                  (s1, tr ++ [EvList (folder_list_params cfg tok) (Returned r)]))
        | Some t =>
            list_loop cfg fuel fm' (Some t)
              (s1, tr ++ [EvList (folder_list_params cfg tok) (Returned r)])
        end
    | Raised e =>
        Some (Raised e,
              (s1, tr ++ [EvList (folder_list_params cfg tok) (Returned r)]))
    end.
Proof.
  intros E. simpl. unfold_run. rewrite E.
  destruct (add_folders fm (get_files r)); [|reflexivity].
  destruct (nextPageToken r); reflexivity.
Qed.

Lemma list_loop_raised fuel fm tok s tr e s1 :
  files_list (folder_list_params cfg tok) s = (Raised e, s1) ->
  list_loop cfg (S fuel) fm tok (s, tr)
  = Some (Raised e,
          (s1, tr ++ [EvList (folder_list_params cfg tok) (Raised e)])).
Proof. intros E. simpl. unfold_run. rewrite E. reflexivity. Qed.

(** More fuel does not change a finished run. *)
Lemma list_loop_mono fuel :
  forall fuel' fm tok w res,
    list_loop cfg fuel fm tok w = Some res ->
    fuel <= fuel' ->
    list_loop cfg fuel' fm tok w = Some res.
Proof.
  induction fuel as [|fuel IH]; intros fuel' fm tok [s tr] res;
    [simpl; discriminate|].
  intros R L. destruct fuel' as [|fuel']; [lia|].
  destruct (files_list (folder_list_params cfg tok) s) as [[r|e] s1] eqn:E.
  - rewrite (list_loop_step fuel fm tok s tr r s1 E) in R.
    rewrite (list_loop_step fuel' fm tok s tr r s1 E).
    destruct (add_folders fm (get_files r)); [|exact R].
    destruct (nextPageToken r); [|exact R].
    apply IH; [exact R | lia].
  - rewrite (list_loop_raised fuel fm tok s tr e s1 E) in R.
    rewrite (list_loop_raised fuel' fm tok s tr e s1 E). exact R.
Qed.

(** A listing that ends is read to its end: the loop returns the map of
    all its records, having issued one request per page. *)
Lemma list_loop_listing s tok pages s' :
  listing cfg s tok pages s' ->
  forall fuel fm tr m,
    List.length pages <= fuel ->
    add_folders fm (all_folders pages) = Returned m ->
    list_loop cfg fuel fm tok (s, tr)
    = Some (Returned m, (s', tr ++ listing_events cfg tok pages)).
Proof.
  induction 1 as [s tok r s' E Hn | s tok r s1 t rs s' E Hn L IH];
    intros fuel fm tr m Hfuel; unfold all_folders; simpl.
  - rewrite app_nil_r. intros A.
    destruct fuel as [|fuel]; [simpl in Hfuel; lia|].
    rewrite (list_loop_step fuel fm tok s tr r s' E), A, Hn. reflexivity.
  - rewrite add_folders_app.
    destruct (add_folders fm (get_files r)) as [fm'|] eqn:A; simpl;
      [|discriminate].
    intros A'.
    destruct fuel as [|fuel]; [simpl in Hfuel; lia|].
    rewrite (list_loop_step fuel fm tok s tr r s1 E), A, Hn.
    rewrite (IH fuel fm' _ m); [|simpl in Hfuel; lia|exact A'].
    rewrite <- app_assoc. reflexivity.
Qed.

(** A record that cannot be indexed stops the loop with its error. *)
Lemma list_loop_listing_raises s tok pages s' :
  listing cfg s tok pages s' ->
  forall fuel fm tr e,
    List.length pages <= fuel ->
    add_folders fm (all_folders pages) = Raised e ->
    exists w', list_loop cfg fuel fm tok (s, tr) = Some (Raised e, w').
Proof.
  induction 1 as [s tok r s' E Hn | s tok r s1 t rs s' E Hn L IH];
    intros fuel fm tr e Hfuel; unfold all_folders; simpl.
  - rewrite app_nil_r. intros A.
    destruct fuel as [|fuel]; [simpl in Hfuel; lia|].
    rewrite (list_loop_step fuel fm tok s tr r s' E), A. eauto.
  - rewrite add_folders_app.
    destruct fuel as [|fuel]; [simpl in Hfuel; lia|].
    rewrite (list_loop_step fuel fm tok s tr r s1 E).
    destruct (add_folders fm (get_files r)) as [fm'|e'] eqn:A; simpl.
    + intros A'. rewrite Hn. apply IH; [simpl in Hfuel; lia | exact A'].
    + intros [= ->]. eauto.
Qed.

(** A listing that fails is read up to the failing request. *)
Lemma list_loop_listing_fails s tok pages e s' :
  listing_fails cfg s tok pages e s' ->
  forall fuel fm tr m,
    List.length pages < fuel ->
    add_folders fm (all_folders pages) = Returned m ->
    exists tr',
      list_loop cfg fuel fm tok (s, tr) = Some (Raised e, (s', tr ++ tr'))
      /\ existsb is_write tr' = false.
Proof.
  induction 1 as [s tok e s' E | s tok r s1 t rs e s' E Hn L IH];
    intros fuel fm tr m Hfuel; unfold all_folders; simpl.
  - intros _. destruct fuel as [|fuel]; [lia|].
    rewrite (list_loop_raised fuel fm tok s tr e s' E).
    eexists; repeat split.
  - rewrite add_folders_app.
    destruct (add_folders fm (get_files r)) as [fm'|] eqn:A; simpl;
      [|discriminate].
    intros A'. destruct fuel as [|fuel]; [lia|].
    rewrite (list_loop_step fuel fm tok s tr r s1 E), A, Hn.
    destruct (IH fuel fm' (tr ++ [EvList (folder_list_params cfg tok) (Returned r)]) m)
      as (tr' & R & W); [simpl in Hfuel; lia | exact A' |].
    exists (EvList (folder_list_params cfg tok) (Returned r) :: tr').
    rewrite R, <- app_assoc. simpl. auto.
Qed.

(** Without a result, every request so far was answered with a cursor. *)
Lemma list_loop_out_of_fuel fuel :
  forall fm tok s tr,
    list_loop cfg fuel fm tok (s, tr) = None -> cursors cfg fuel s tok.
Proof.
  induction fuel as [|fuel IH]; intros fm tok s tr; [simpl; trivial|].
  destruct (files_list (folder_list_params cfg tok) s) as [[r|e] s1] eqn:E.
  - rewrite (list_loop_step fuel fm tok s tr r s1 E).
    destruct (add_folders fm (get_files r)); [|discriminate].
    destruct (nextPageToken r) as [t|] eqn:Hn; [|discriminate].
    intros R. exists r, s1, t. repeat split; auto. eapply IH, R.
  - rewrite (list_loop_raised fuel fm tok s tr e s1 E). discriminate.
Qed.

End LoopFacts.

(** ** The builder *)

Section BuilderFacts.

Context {St : Type} `{DriveService St}.
Variable cfg : Config.

(** X2: over a listing that ends and whose records can all be indexed, the
    builder returns a map with exactly the listed ids as keys, each once,
    having issued one request per page. *)
Theorem build_folder_path_map_keys s pages s' :
  listing cfg s None pages s' ->
  forallb indexable (all_folders pages) = true ->
  forall fuel tr,
    List.length pages <= fuel ->
    exists m,
      build_folder_path_map cfg fuel (s, tr)
      = Some (Returned m, (s', tr ++ listing_events cfg None pages))
      /\ NoDup (keys m)
      /\ forall k,
           In k (keys m) <-> In (Some k) (map f_id (all_folders pages)).
Proof.
  intros L WF fuel tr Hfuel.
  destruct (add_folders_total [] _ WF) as [m A].
  exists m. split; [|split].
  - apply list_loop_listing; assumption.
  - apply (add_folders_keys _ _ _ A). constructor.
  - intros k. rewrite (proj2 (add_folders_keys _ _ _ A) k). simpl. tauto.
Qed.

(** Whatever the fuel, a map the builder returns over a listing is the
    one of all its records. *)
Lemma build_folder_path_map_result s pages s' fuel tr m w' :
  listing cfg s None pages s' ->
  build_folder_path_map cfg fuel (s, tr) = Some (Returned m, w') ->
  add_folders [] (all_folders pages) = Returned m.
Proof.
  intros L R.
  pose (F := Nat.max fuel (List.length pages)).
  assert (RF : build_folder_path_map cfg F (s, tr) = Some (Returned m, w'))
    by (eapply list_loop_mono; [exact R | lia]).
  destruct (add_folders [] (all_folders pages)) as [m2|e] eqn:A.
  - unfold build_folder_path_map in RF.
    rewrite (list_loop_listing cfg s None pages s' L F [] tr m2) in RF;
      [congruence | lia | exact A].
  - destruct (list_loop_listing_raises cfg s None pages s' L F [] tr e)
      as [w2 R2]; [lia | exact A |].
    unfold build_folder_path_map in RF. congruence.
Qed.

(** C3: a record with two or more parent references gets an entry whose
    parent is the first of them, the others being dropped.  The record is
    the only one of the listing with its id (ids are unique within one
    build).  Whenever the builder returns a map, the entry is in it; and
    the builder does return one when every record of the listing can be
    indexed. *)
Theorem first_parent_retained s pages s' folder i n p q more :
  listing cfg s None pages s' ->
  In folder (all_folders pages) ->
  f_id folder = Some i ->
  f_name folder = Some n ->
  f_parents folder = Some (p :: q :: more) ->
  (forall other,
      In other (all_folders pages) -> f_id other = Some i -> other = folder) ->
  (forall fuel tr m w',
      build_folder_path_map cfg fuel (s, tr) = Some (Returned m, w') ->
      dict_get i m = Some {| name := n; parent := p |})
  /\ (forallb indexable (all_folders pages) = true ->
      forall fuel tr,
        List.length pages <= fuel ->
        exists m,
          build_folder_path_map cfg fuel (s, tr)
          = Some (Returned m, (s', tr ++ listing_events cfg None pages))
          /\ dict_get i m = Some {| name := n; parent := p |}).
Proof.
  intros L Hin Hi Hn Hp Huniq.
  assert (G : forall m, add_folders [] (all_folders pages) = Returned m ->
                        dict_get i m = Some {| name := n; parent := p |}).
  { intros m A.
    apply (add_folders_get [] m (all_folders pages) folder i n p); auto.
    eapply first_parent_cons, Hp. }
  split.
  - intros fuel tr m w' R. eapply G, build_folder_path_map_result; eauto.
  - intros WF fuel tr Hfuel.
    destruct (add_folders_total [] _ WF) as [m A].
    exists m. split; [|apply G, A].
    apply list_loop_listing; assumption.
Qed.

End BuilderFacts.

Lemma listing_abc :
  listing cfg0 session_abc None pages_abc
    (session [ page [] None ] [ Returned (only_id (lit "file-1")) ]).
Proof.
  eapply listing_more; [reflexivity | reflexivity |].
  eapply listing_last; reflexivity.
Qed.

Lemma first_parent_retained_witness :
  (forall fuel tr m w',
      build_folder_path_map cfg0 fuel (session_abc, tr)
      = Some (Returned m, w') ->
      dict_get (lit "b") m
      = Some {| name := lit "B"; parent := Some (lit "a") |})
  /\ (forallb indexable (all_folders pages_abc) = true ->
      forall fuel tr,
        List.length pages_abc <= fuel ->
        exists m,
          build_folder_path_map cfg0 fuel (session_abc, tr)
          = Some (Returned m,
                  (session [ page [] None ] [ Returned (only_id (lit "file-1")) ],
                   tr ++ listing_events cfg0 None pages_abc))
          /\ dict_get (lit "b") m
             = Some {| name := lit "B"; parent := Some (lit "a") |}).
Proof.
  apply (first_parent_retained cfg0 session_abc pages_abc _ record_b
           (lit "b") (lit "B") (Some (lit "a")) (Some (lit "x")) []).
  - exact listing_abc.
  - simpl. auto.
  - reflexivity.
  - reflexivity.
  - reflexivity.
  - intros other Hin Hid. simpl in Hin.
    destruct Hin as [<-|[<-|[<-|[]]]]; [discriminate | reflexivity | discriminate].
Defined.

(** The scenario of the specification: A without parent, B under A, C under
    B, listed over two pages. *)
Example build_folder_path_map_abc :
  build_folder_path_map cfg0 2 (session_abc, [])
  = Some (Returned
            [ (lit "a", {| name := lit "A"; parent := None |});
              (lit "b", {| name := lit "B"; parent := Some (lit "a") |});
              (lit "c", {| name := lit "C"; parent := Some (lit "b") |}) ],
          (session [ page [] None ] [ Returned (only_id (lit "file-1")) ],
           listing_events cfg0 None pages_abc)).
Proof. reflexivity. Qed.

(** C1: a record whose parents list is present and empty.  The subscript
    [[0]] raises [IndexError] on it: the builder stores no entry and returns
    no map, and the entry point answers 500. *)
Theorem empty_parents_list_raises :
  add_folder [] (record "a" "A" (Some [])) = Raised IndexError
  /\ build_folder_path_map cfg0 1 (session_empty_parents, [])
     = Some (Raised IndexError,
             (session [] [],
              [EvList (folder_list_params cfg0 None)
                 (page [ record "a" "A" (Some []) ] None)]))
  /\ main cfg0 1 (session_empty_parents, [])
     = Some (Returned (error_body (lit "list index out of range"), 500%N),
             (session [] [],
              [EvList (folder_list_params cfg0 None)
                 (page [ record "a" "A" (Some []) ] None)])).
Proof. repeat split. Qed.

(** C2: a listing of two pages with a record on the second whose parents
    list is present and empty.  The builder raises and returns no map, so
    the records of both pages are lost. *)
Theorem listing_with_empty_parents_returns_no_map :
  listing cfg0 session_second_page_empty_parents None
    [ {| files := Some [ record "a" "A" (Some [Some (lit "root")]) ];
         nextPageToken := Some (lit "t1") |};
      {| files := Some [ record "b" "B" (Some []) ];
         nextPageToken := None |} ]
    (session [] [])
  /\ forall fuel, 2 <= fuel ->
       exists w',
         build_folder_path_map cfg0 fuel (session_second_page_empty_parents, [])
         = Some (Raised IndexError, w').
Proof.
  assert (L : listing cfg0 session_second_page_empty_parents None
    [ {| files := Some [ record "a" "A" (Some [Some (lit "root")]) ];
         nextPageToken := Some (lit "t1") |};
      {| files := Some [ record "b" "B" (Some []) ];
         nextPageToken := None |} ]
    (session [] [])).
  { eapply listing_more; [reflexivity | reflexivity |].
    eapply listing_last; reflexivity. }
  split; [exact L|].
  intros fuel Hfuel.
  eapply list_loop_listing_raises; [exact L | exact Hfuel | reflexivity].
Qed.

(** ** The serialized text is ASCII, so its UTF-8 encoding is itself *)

Lemma is_ascii_app (a b : pystr) :
  is_ascii (a ++ b) = is_ascii a && is_ascii b.
Proof. apply forallb_app. Qed.

Lemma hex_digit_ascii (d : N) : (d < 16)%N -> (hex_digit d <? 128)%N = true.
Proof.
  intros L. unfold hex_digit. apply N.ltb_lt.
  destruct (d <? 10)%N; lia.
Qed.

Lemma hex4_ascii (n : N) : is_ascii (hex4 n) = true.
Proof.
  unfold hex4, is_ascii. simpl.
  rewrite !hex_digit_ascii; [reflexivity | | | |];
    apply N.mod_lt; discriminate.
Qed.

Lemma escape_char_ascii (c : codepoint) : is_ascii (escape_char c) = true.
Proof.
  unfold escape_char.
  repeat match goal with
         | |- context [if (c =? ?k)%N then _ else _] =>
             destruct (c =? k)%N; [reflexivity|]
         end.
  destruct ((32 <=? c) && (c <=? 126))%N eqn:E.
  - apply andb_true_iff in E. destruct E as [_ E]. apply N.leb_le in E.
    unfold is_ascii. simpl. rewrite andb_true_r. apply N.ltb_lt. lia.
  - destruct (c <? 65536)%N; rewrite ?is_ascii_app, ?hex4_ascii; reflexivity.
Qed.

Lemma escape_body_ascii (s : pystr) : is_ascii (escape_body s) = true.
Proof.
  induction s as [|c s IH]; simpl; [reflexivity|].
  now rewrite is_ascii_app, escape_char_ascii, IH.
Qed.

Lemma encode_basestring_ascii_is_ascii (s : pystr) :
  is_ascii (encode_basestring_ascii s) = true.
Proof.
  unfold encode_basestring_ascii.
  change (dquote :: escape_body s ++ [dquote])
    with ([dquote] ++ escape_body s ++ [dquote]).
  now rewrite !is_ascii_app, escape_body_ascii.
Qed.

Lemma newline_indent_ascii (level : nat) : is_ascii (newline_indent level) = true.
Proof.
  unfold newline_indent, is_ascii.
  generalize (4 * level)%nat as k.
  induction k as [|k IH]; [reflexivity|]. exact IH.
Qed.

Lemma encode_item_ascii (kv : pystr * Entry) : is_ascii (encode_item kv) = true.
Proof.
  unfold encode_item, encode_entry.
  rewrite !is_ascii_app, !encode_basestring_ascii_is_ascii,
    !newline_indent_ascii.
  destruct (parent (snd kv)); unfold encode_opt;
    rewrite ?encode_basestring_ascii_is_ascii; reflexivity.
Qed.

Lemma encode_more_ascii (items : FolderMap) : is_ascii (encode_more items) = true.
Proof.
  induction items as [|kv items IH]; [reflexivity|].
  change (encode_more (kv :: items))
    with (lit "," ++ newline_indent 1 ++ encode_item kv ++ encode_more items).
  now rewrite !is_ascii_app, newline_indent_ascii, encode_item_ascii, IH.
Qed.

Lemma json_dumps_ascii (m : FolderMap) : is_ascii (json_dumps m) = true.
Proof.
  destruct m as [|kv m]; [reflexivity|]. unfold json_dumps.
  now rewrite !is_ascii_app, !newline_indent_ascii, encode_item_ascii,
    encode_more_ascii.
Qed.

Lemma utf8_encode_from_ascii (s : pystr) :
  is_ascii s = true -> forall pos, utf8_encode_from pos s = Returned s.
Proof.
  induction s as [|c s IH]; simpl; [reflexivity|].
  rewrite andb_true_iff. intros [Hc Hs] pos.
  assert (L : (c < 128)%N) by (apply N.ltb_lt, Hc).
  assert (Sg : is_surrogate c = false).
  { unfold is_surrogate. apply andb_false_iff. left. apply N.leb_gt. lia. }
  rewrite Sg, (IH Hs). simpl. unfold utf8_char. rewrite Hc. reflexivity.
Qed.

(** The bytes uploaded are the characters of the serialized text. *)
Lemma utf8_encode_json_dumps (m : FolderMap) :
  utf8_encode (json_dumps m) = Returned (json_dumps m).
Proof. apply utf8_encode_from_ascii, json_dumps_ascii. Qed.

(** ** The publisher and the entry point, step by step *)

Section PublisherFacts.

Context {St : Type} `{DriveService St}.
Variable cfg : Config.

Lemma upload_map_to_drive_steps folder_id filename m s tr :
  upload_map_to_drive folder_id filename m (s, tr)
  = let sp := search_params filename folder_id in
    let '(found, s1) := files_list sp s in
    let tr1 := tr ++ [EvList sp found] in
    match found with
    | Raised e => Some (Raised e, (s1, tr1))
    | Returned sr =>
        match get_files sr with
        | first :: _ =>
            match f_id first with
            | None => Some (Raised (KeyError (lit "id")), (s1, tr1))
            | Some fid =>
                let p := update_params fid (media_of m) in
                let '(r, s2) := files_update p s1 in
                Some (write_result r, (s2, tr1 ++ [EvUpdate p r]))
            end
        | [] =>
            let p := create_params filename folder_id (media_of m) in
            let '(r, s2) := files_create p s1 in
            Some (write_result r, (s2, tr1 ++ [EvCreate p r]))
        end
    end.
Proof.
  unfold upload_map_to_drive, media_of. unfold_run.
  rewrite utf8_encode_json_dumps.
  destruct (files_list (search_params filename folder_id) s)
    as [[sr|e] s1]; [|reflexivity].
  destruct (get_files sr) as [|first rest]; cbn [fst snd].
  - destruct (files_create _ s1) as [[c|e] s2]; reflexivity.
  - destruct (f_id first) as [fid|]; [|reflexivity]. cbn [getitem fst snd].
    destruct (files_update _ s1) as [[u|e] s2]; reflexivity.
Qed.

(** The publisher has no loop: it always finishes. *)
Lemma upload_map_to_drive_finishes folder_id filename m w :
  exists r w', upload_map_to_drive folder_id filename m w = Some (r, w').
Proof.
  destruct w as [s tr]. rewrite upload_map_to_drive_steps. cbv zeta.
  destruct (files_list _ s) as [[sr|e] s1]; [|eauto].
  destruct (get_files sr) as [|first rest].
  - destruct (files_create _ s1) as [r s2]; eauto.
  - destruct (f_id first); [|eauto].
    destruct (files_update _ s1) as [r s2]; eauto.
Qed.

Lemma main_steps fuel s tr :
  main cfg fuel (s, tr)
  = let '(c, s1) := connect s in
    match c with
    | Raised e => handled e (s1, tr)
    | Returned _ =>
        match build_folder_path_map cfg fuel (s1, tr) with
        | None => None
        | Some (Raised e, w) => handled e w
        | Some (Returned m, w) =>
            match upload_map_to_drive (SHARED_DRIVE_FOLDER cfg)
                    map_filename m w with
            | None => None
            | Some (Returned file_id, w') =>
                Some (Returned (success_body file_id, 200%N), w')
            | Some (Raised e, w') => handled e w'
            end
        end
    end.
Proof.
  unfold main, GoogleDriveRPA, try_except, handled. unfold_run.
  destruct (connect s) as [[u|e] s1];
    [|destruct e; reflexivity].
  destruct (build_folder_path_map cfg fuel (s1, tr)) as [[[m|e] w]|];
    [|destruct e; reflexivity | reflexivity].
  destruct (upload_map_to_drive _ _ m w) as [[[fid|e] w']|];
    [reflexivity | destruct e; reflexivity | reflexivity].
Qed.

(** Calls among which there is no write are list calls. *)
Lemma reads_only calls :
  existsb is_write calls = false ->
  Forall (fun ev => exists p r, ev = EvList p r) calls.
Proof.
  induction calls as [|ev calls IH]; simpl; [constructor|].
  destruct ev as [p r|p r|p r]; simpl; try discriminate.
  intros W. constructor; [eauto | exact (IH W)].
Qed.

(** C4, as the code has it: the publisher searches the container for the
    name.  On one or more matches it issues one update, addressed by the
    id that the search reports for the first match and carrying the
    serialized map as plain text, and returns the id that the update's
    answer reports.  On no match it issues one create with the name, the
    parent container, the plain-text media type and the serialized map,
    and returns the id that the create's answer reports.  No other call is
    issued. *)
Theorem upload_map_to_drive_branches folder_id filename m s tr sr s1 :
  let search :=
    {| lp_q := lit "name = '" ++ filename ++ lit "' and '"
                 ++ match folder_id with Some i => i | None => lit "None" end
                 ++ lit "' in parents and trashed = false";
       lp_corpora := None; lp_driveId := None;
       lp_includeItemsFromAllDrives := true; lp_supportsAllDrives := true;
       lp_fields := lit "files(id)"; lp_pageSize := None;
       lp_pageToken := None |} in
  let media :=
    {| m_body := json_dumps m; m_mimetype := lit "text/plain";
       m_resumable := true |} in
  files_list search s = (Returned sr, s1) ->
  (forall first rest fid updated_file s2,
      get_files sr = first :: rest ->
      f_id first = Some fid ->
      let update :=
        {| up_fileId := fid; up_media_body := media;
           up_fields := lit "id"; up_supportsAllDrives := true |} in
      files_update update s1 = (Returned updated_file, s2) ->
      upload_map_to_drive folder_id filename m (s, tr)
      = Some (Returned (f_id updated_file),
              (s2, tr ++ [ EvList search (Returned sr);
                           EvUpdate update (Returned updated_file) ])))
  /\ (forall created_file s2,
        get_files sr = [] ->
        let create :=
          {| cp_body := {| md_name := filename; md_parents := [folder_id];
                           md_mimeType := lit "text/plain" |};
             cp_media_body := media;
             cp_fields := lit "id"; cp_supportsAllDrives := true |} in
        files_create create s1 = (Returned created_file, s2) ->
        upload_map_to_drive folder_id filename m (s, tr)
        = Some (Returned (f_id created_file),
                (s2, tr ++ [ EvList search (Returned sr);
                             EvCreate create (Returned created_file) ]))).
Proof.
  intros search media E.
  change (files_list (search_params filename folder_id) s = (Returned sr, s1))
    in E.
  split.
  - intros first rest fid u s2 Hf Hid update U.
    change (files_update (update_params fid (media_of m)) s1
            = (Returned u, s2)) in U.
    rewrite upload_map_to_drive_steps. cbv zeta.
    rewrite E, Hf, Hid, U, <- app_assoc. reflexivity.
  - intros c s2 Hf create C.
    change (files_create (create_params filename folder_id (media_of m)) s1
            = (Returned c, s2)) in C.
    rewrite upload_map_to_drive_steps. cbv zeta.
    rewrite E, Hf, C, <- app_assoc. reflexivity.
Qed.

(** C6: the listing raises a provider error with the message [msg] at some
    request, the pages before it having been read.  The entry point
    answers 500 with an error body whose message is [msg]; the map built so
    far is dropped, and every call of the run is a list call: no update and
    no create is issued. *)
Theorem listing_failure_gives_500 s0 s pages msg s' :
  connect s0 = (Returned tt, s) ->
  listing_fails cfg s None pages (ServiceError msg) s' ->
  forallb indexable (all_folders pages) = true ->
  forall fuel tr,
    List.length pages < fuel ->
    exists calls,
      main cfg fuel (s0, tr)
      = Some (Returned ([ (lit "status", VStr (lit "error"));
                          (lit "message", VStr msg) ], 500%N),
              (s', tr ++ calls))
      /\ Forall (fun ev => exists p r, ev = EvList p r) calls.
Proof.
  intros C L WF fuel tr Hfuel.
  destruct (add_folders_total [] _ WF) as [m A].
  destruct (list_loop_listing_fails cfg s None pages _ s' L fuel [] tr m
              Hfuel A) as (calls & R & W).
  exists calls. split; [|apply reads_only, W].
  rewrite main_steps, C. unfold build_folder_path_map. rewrite R.
  reflexivity.
Qed.

(** C7, as the code has it: an invocation that returns a response returns
    the success body (status, message and file_id) with 200, or an error
    body (status and message) with 500.  There are two ways not to return
    one: an exception that is not an [Exception], which the handler lets
    through, and a listing that is still going on: with [fuel] requests
    made, every one of them was answered with a continuation cursor. *)
Theorem main_response_shape fuel s tr :
  (exists file_id w',
      main cfg fuel (s, tr)
      = Some (Returned
                ([ (lit "status", VStr (lit "success"));
                   (lit "message", VStr (lit "Map updated successfully"));
                   (lit "file_id",
                    match file_id with Some i => VStr i | None => VNone end) ],
                 200%N), w'))
  \/ (exists msg w',
        main cfg fuel (s, tr)
        = Some (Returned ([ (lit "status", VStr (lit "error"));
                            (lit "message", VStr msg) ], 500%N), w'))
  \/ (exists e w',
        main cfg fuel (s, tr) = Some (Raised e, w')
        /\ ((exists code, e = SystemExit code) \/ e = KeyboardInterrupt))
  \/ (main cfg fuel (s, tr) = None
      /\ exists s1, connect s = (Returned tt, s1)
                    /\ cursors cfg fuel s1 None).
Proof.
  assert (Handled : forall e (w : St * list event),
             (exists msg w',
                 handled e w
                 = Some (Returned ([ (lit "status", VStr (lit "error"));
                                     (lit "message", VStr msg) ], 500%N), w'))
             \/ (exists e' w',
                    handled e w = Some (Raised e', w')
                    /\ ((exists code, e' = SystemExit code)
                        \/ e' = KeyboardInterrupt))).
  { intros e w. destruct e; try (left; do 2 eexists; reflexivity);
      right; do 2 eexists; (split; [reflexivity|]); eauto. }
  rewrite main_steps.
  destruct (connect s) as [[[] |e] s1] eqn:C.
  - destruct (build_folder_path_map cfg fuel (s1, tr))
      as [[[m|e] w]|] eqn:B.
    + destruct (upload_map_to_drive_finishes (SHARED_DRIVE_FOLDER cfg)
                  map_filename m w) as (r & w' & U).
      rewrite U. destruct r as [fid|e].
      * left. exists fid, w'. destruct fid; reflexivity.
      * right. destruct (Handled e w') as [E|E]; [left | right; left]; exact E.
    + right. destruct (Handled e w) as [E|E]; [left | right; left]; exact E.
    + right. right. right. split; [reflexivity|]. exists s1.
      split; [reflexivity|]. eapply list_loop_out_of_fuel, B.
  - right. destruct (Handled e (s1, tr)) as [E|E]; [left | right; left];
      exact E.
Qed.

(** C8: the listing is one empty page without a cursor and the search
    finds no file.  The publisher issues one create, for the name
    folder_map.txt in the configured container, whose content is the two
    characters of an empty JSON object, and the entry point answers 200
    with the id the create answers with. *)
Theorem empty_drive_creates_empty_object s0 s r s1 sr s2 created_file s3 :
  let list_folders :=
    {| lp_q := lit "mimeType='application/vnd.google-apps.folder' and trashed=false";
       lp_corpora := Some (lit "drive");
       lp_driveId := SHARED_DRIVE_ID cfg;
       lp_includeItemsFromAllDrives := true; lp_supportsAllDrives := true;
       lp_fields := lit "nextPageToken, files(id, name, parents)";
       lp_pageSize := Some 1000%N; lp_pageToken := None |} in
  let search :=
    {| lp_q := lit "name = 'folder_map.txt' and '"
                 ++ match SHARED_DRIVE_FOLDER cfg with
                    | Some i => i
                    | None => lit "None"
                    end
                 ++ lit "' in parents and trashed = false";
       lp_corpora := None; lp_driveId := None;
       lp_includeItemsFromAllDrives := true; lp_supportsAllDrives := true;
       lp_fields := lit "files(id)"; lp_pageSize := None;
       lp_pageToken := None |} in
  let create :=
    {| cp_body := {| md_name := lit "folder_map.txt";
                     md_parents := [SHARED_DRIVE_FOLDER cfg];
                     md_mimeType := lit "text/plain" |};
       cp_media_body := {| m_body := [123; 125]%N;
                           m_mimetype := lit "text/plain";
                           m_resumable := true |};
       cp_fields := lit "id"; cp_supportsAllDrives := true |} in
  connect s0 = (Returned tt, s) ->
  files_list list_folders s = (Returned r, s1) ->
  get_files r = [] -> nextPageToken r = None ->
  files_list search s1 = (Returned sr, s2) ->
  get_files sr = [] ->
  files_create create s2 = (Returned created_file, s3) ->
  forall fuel, 1 <= fuel ->
    main cfg fuel (s0, [])
    = Some (Returned
              ([ (lit "status", VStr (lit "success"));
                 (lit "message", VStr (lit "Map updated successfully"));
                 (lit "file_id",
                  match f_id created_file with
                  | Some i => VStr i
                  | None => VNone
                  end) ], 200%N),
            (s3, [ EvList list_folders (Returned r);
                   EvList search (Returned sr);
                   EvCreate create (Returned created_file) ])).
Proof.
  intros list_folders search create C L Hr Hn S Hsr Cr fuel Hfuel.
  change (files_list (folder_list_params cfg None) s = (Returned r, s1)) in L.
  change (files_list (search_params map_filename (SHARED_DRIVE_FOLDER cfg)) s1
          = (Returned sr, s2)) in S.
  change (files_create
            (create_params map_filename (SHARED_DRIVE_FOLDER cfg) (media_of []))
            s2
          = (Returned created_file, s3)) in Cr.
  destruct fuel as [|fuel]; [lia|].
  rewrite main_steps, C. unfold build_folder_path_map.
  rewrite (list_loop_step cfg fuel [] None s [] r s1 L), Hr, Hn. simpl.
  rewrite upload_map_to_drive_steps. cbv zeta.
  rewrite S, Hsr, Cr. reflexivity.
Qed.

(** C10: the write call of the publisher, update or create, succeeds and
    its answer has no id.  The entry point still answers 200 with a
    success body, whose file_id is [None]; nothing checks that an id came
    back. *)
Theorem missing_id_still_success fuel s0 tr s m s1 tr1 sr s2 answer s3 :
  connect s0 = (Returned tt, s) ->
  build_folder_path_map cfg fuel (s, tr) = Some (Returned m, (s1, tr1)) ->
  files_list (search_params map_filename (SHARED_DRIVE_FOLDER cfg)) s1
  = (Returned sr, s2) ->
  f_id answer = None ->
  let searched :=
    tr1 ++ [EvList (search_params map_filename (SHARED_DRIVE_FOLDER cfg))
              (Returned sr)] in
  let ok_without_id : Response :=
    ([ (lit "status", VStr (lit "success"));
       (lit "message", VStr (lit "Map updated successfully"));
       (lit "file_id", VNone) ], 200%N) in
  (forall first rest fid,
      get_files sr = first :: rest ->
      f_id first = Some fid ->
      files_update (update_params fid (media_of m)) s2
      = (Returned answer, s3) ->
      main cfg fuel (s0, tr)
      = Some (Returned ok_without_id,
              (s3, searched ++ [EvUpdate (update_params fid (media_of m))
                                  (Returned answer)])))
  /\ (get_files sr = [] ->
      files_create
        (create_params map_filename (SHARED_DRIVE_FOLDER cfg) (media_of m))
        s2
      = (Returned answer, s3) ->
      main cfg fuel (s0, tr)
      = Some (Returned ok_without_id,
              (s3, searched
                     ++ [EvCreate
                           (create_params map_filename
                              (SHARED_DRIVE_FOLDER cfg) (media_of m))
                           (Returned answer)]))).
Proof.
  intros C B S Hid searched ok_without_id.
  rewrite main_steps, C, B, upload_map_to_drive_steps. cbv zeta.
  rewrite S. split.
  - intros first rest fid Hf Hfid U.
    rewrite Hf, Hfid, U. simpl. rewrite Hid. reflexivity.
  - intros Hf Cr. rewrite Hf, Cr. simpl. rewrite Hid. reflexivity.
Qed.

End PublisherFacts.

(** ** What a finished run has called *)

Section TraceFacts.

Context {St : Type} `{DriveService St}.
Variable cfg : Config.

(** The calls of the pagination loop are listing requests, and one that
    raised is the last of them and decides the result. *)
Lemma list_loop_calls fuel :
  forall fm tok s tr r s' tr',
    list_loop cfg fuel fm tok (s, tr) = Some (r, (s', tr')) ->
    exists calls,
      tr' = tr ++ calls
      /\ existsb is_write calls = false
      /\ forall p e, In (EvList p (Raised e)) calls -> r = Raised e.
Proof.
  induction fuel as [|fuel IH]; intros fm tok s tr r s' tr';
    [simpl; discriminate|].
  destruct (files_list (folder_list_params cfg tok) s) as [[resp|e0] s1] eqn:E.
  - rewrite (list_loop_step cfg fuel fm tok s tr resp s1 E).
    set (ev := EvList (folder_list_params cfg tok) (Returned resp)).
    assert (One : forall r0,
               Some (r0, (s1, tr ++ [ev])) = Some (r, (s', tr')) ->
               exists calls,
                 tr' = tr ++ calls /\ existsb is_write calls = false
                 /\ forall p e, In (EvList p (Raised e)) calls -> r = Raised e).
    { intros r0 [= <- <- <-]. exists [ev]. repeat split.
      intros p e [Hev|[]]. discriminate Hev. }
    destruct (add_folders fm (get_files resp)) as [fm'|e1]; [|apply One].
    destruct (nextPageToken resp) as [t|]; [|apply One].
    intros R. destruct (IH _ _ _ _ _ _ _ R) as (calls & -> & W & F).
    exists (ev :: calls). rewrite <- app_assoc. repeat split; auto.
    intros p e [Hev|Hin]; [discriminate Hev | eauto].
  - rewrite (list_loop_raised cfg fuel fm tok s tr e0 s1 E).
    intros [= <- <- <-]. eexists. repeat split.
    intros p e [[= _ ->]|[]]. reflexivity.
Qed.

Lemma upload_map_to_drive_calls folder_id filename m s tr r s' tr' :
  upload_map_to_drive folder_id filename m (s, tr) = Some (r, (s', tr')) ->
  exists calls,
    tr' = tr ++ calls
    /\ forall p e,
         In (EvList p (Raised e)) calls ->
         r = Raised e /\ existsb is_write calls = false.
Proof.
  rewrite upload_map_to_drive_steps. cbv zeta.
  destruct (files_list _ s) as [[sr|e0] s1].
  - destruct (get_files sr) as [|first rest].
    + destruct (files_create _ s1) as [r2 s2]. intros [= <- <- <-].
      rewrite <- app_assoc. eexists. split; [reflexivity|].
      intros p e [Hev|[Hev|[]]]; discriminate Hev.
    + destruct (f_id first) as [fid|].
      * destruct (files_update _ s1) as [r2 s2]. intros [= <- <- <-].
        rewrite <- app_assoc. eexists. split; [reflexivity|].
        intros p e [Hev|[Hev|[]]]; discriminate Hev.
      * intros [= <- <- <-]. eexists. split; [reflexivity|].
        intros p e [Hev|[]]; discriminate Hev.
  - intros [= <- <- <-]. eexists. split; [reflexivity|].
    intros p e [[= _ ->]|[]]. split; reflexivity.
Qed.

(** X8: however a run goes, if one of its [files().list] requests raised a
    provider error with the message [msg], the listing or the search, the
    entry point answers 500 with an error body whose message is [msg], and
    every call of the run is a list call: it holds no update and no
    create. *)
Theorem failed_list_call_gives_500 fuel s tr resp s' tr' :
  main cfg fuel (s, tr) = Some (Returned resp, (s', tr')) ->
  exists calls,
    tr' = tr ++ calls
    /\ forall p msg,
         In (EvList p (Raised (ServiceError msg))) calls ->
         resp = ([ (lit "status", VStr (lit "error"));
                   (lit "message", VStr msg) ], 500%N)
         /\ Forall (fun ev => exists p' r, ev = EvList p' r) calls.
Proof.
  rewrite main_steps.
  destruct (connect s) as [[[]|e0] s1].
  - destruct (build_folder_path_map cfg fuel (s1, tr))
      as [[[m|e1] [s2 tr2]]|] eqn:B; [| |discriminate].
    + destruct (list_loop_calls _ _ _ _ _ _ _ _ B) as (c1 & -> & W1 & F1).
      destruct (upload_map_to_drive (SHARED_DRIVE_FOLDER cfg) map_filename m
                  (s2, tr ++ c1)) as [[r [s3 tr3]]|] eqn:U; [|discriminate].
      destruct (upload_map_to_drive_calls _ _ _ _ _ _ _ _ U) as (c2 & -> & F2).
      intros R. exists (c1 ++ c2).
      rewrite app_assoc. split.
      { destruct r as [fid|e]; [injection R as <- <- <-; reflexivity|].
        unfold handled in R. destruct (is_Exception e); [|discriminate R].
        injection R as <- <- <-. reflexivity. }
      intros p msg Hin. apply in_app_or in Hin. destruct Hin as [Hin|Hin].
      * specialize (F1 p _ Hin). discriminate F1.
      * destruct (F2 p _ Hin) as [-> W2].
        injection R as <- <- <-. split; [reflexivity|].
        apply reads_only. rewrite existsb_app, W1, W2. reflexivity.
    + destruct (list_loop_calls _ _ _ _ _ _ _ _ B) as (c1 & -> & W1 & F1).
      intros R. exists c1. split.
      { unfold handled in R. destruct (is_Exception e1); [|discriminate R].
        injection R as <- <- <-. reflexivity. }
      intros p msg Hin. specialize (F1 p _ Hin). injection F1 as ->.
      injection R as <- <- <-. split; [reflexivity | apply reads_only, W1].
  - intros R. exists []. split.
    { unfold handled in R. destruct (is_Exception e0); [|discriminate R].
      injection R as <- <- <-. rewrite app_nil_r. reflexivity. }
    intros p msg [].
Qed.

End TraceFacts.

(** ** The claims on recorded sessions *)

(** C4 as the specification words it fails when the update answers without
    an id: the search finds the file X, the update of X succeeds, and the
    publisher returns [None], not the id of X. *)
Lemma update_without_id_returns_none :
  upload_map_to_drive (Some (lit "folder-1")) map_filename []
    (session_update_without_id, [])
  = Some (Returned None,
          (session [] [],
           [ EvList (search_params map_filename (Some (lit "folder-1")))
               (page [ {| f_id := Some (lit "X"); f_name := None;
                          f_parents := None |} ] None);
             EvUpdate (update_params (lit "X") (media_of []))
               (Returned {| f_id := None; f_name := None;
                            f_parents := None |}) ]))
  /\ @None pystr <> Some (lit "X").
Proof. split; [reflexivity | discriminate]. Qed.

Lemma upload_map_to_drive_branches_witness :
  upload_map_to_drive (Some (lit "folder-1")) map_filename []
    (session [ page [ only_id (lit "X") ] None ] [ Returned (only_id (lit "X")) ],
     [])
  = Some (Returned (Some (lit "X")),
          (session [] [],
           [] ++ [ EvList (search_params map_filename (Some (lit "folder-1")))
                     (page [ only_id (lit "X") ] None);
                   EvUpdate
                     {| up_fileId := lit "X";
                        up_media_body := {| m_body := lit "{}";
                                            m_mimetype := lit "text/plain";
                                            m_resumable := true |};
                        up_fields := lit "id";
                        up_supportsAllDrives := true |}
                     (Returned (only_id (lit "X"))) ]))
  /\ upload_map_to_drive (Some (lit "folder-1")) map_filename []
       (session [ page [] None ] [ Returned (only_id (lit "new")) ], [])
     = Some (Returned (Some (lit "new")),
             (session [] [],
              [] ++ [ EvList (search_params map_filename (Some (lit "folder-1")))
                        (page [] None);
                      EvCreate
                        {| cp_body := {| md_name := lit "folder_map.txt";
                                         md_parents := [Some (lit "folder-1")];
                                         md_mimeType := lit "text/plain" |};
                           cp_media_body := {| m_body := lit "{}";
                                               m_mimetype := lit "text/plain";
                                               m_resumable := true |};
                           cp_fields := lit "id";
                           cp_supportsAllDrives := true |}
                        (Returned (only_id (lit "new"))) ])).
Proof.
  split.
  - refine (proj1 (upload_map_to_drive_branches (Some (lit "folder-1"))
                     map_filename []
                     (session [ page [ only_id (lit "X") ] None ]
                        [ Returned (only_id (lit "X")) ])
                     []
                     {| files := Some [ only_id (lit "X") ];
                        nextPageToken := None |}
                     (session [] [ Returned (only_id (lit "X")) ])
                     _)
              (only_id (lit "X")) [] (lit "X") (only_id (lit "X"))
              (session [] []) _ _ _);
      reflexivity.
  - refine (proj2 (upload_map_to_drive_branches (Some (lit "folder-1"))
                     map_filename []
                     (session [ page [] None ] [ Returned (only_id (lit "new")) ])
                     []
                     {| files := Some []; nextPageToken := None |}
                     (session [] [ Returned (only_id (lit "new")) ])
                     _)
              (only_id (lit "new")) (session [] []) _ _);
      reflexivity.
Defined.

Lemma listing_failure_gives_500_witness :
  exists calls,
    main cfg0 2 (session_listing_fails, [])
    = Some (Returned ([ (lit "status", VStr (lit "error"));
                        (lit "message", VStr (lit "quota exceeded")) ], 500%N),
            (session [] [ Returned (only_id (lit "file-1")) ], [] ++ calls))
    /\ Forall (fun ev => exists p r, ev = EvList p r) calls.
Proof.
  apply (listing_failure_gives_500 cfg0 session_listing_fails
           (session_listing_fails)
           [ {| files := Some [ record "a" "A" None ];
                nextPageToken := Some (lit "t1") |} ]
           (lit "quota exceeded")
           (session [] [ Returned (only_id (lit "file-1")) ])).
  - reflexivity.
  - eapply fails_later; [reflexivity | reflexivity |].
    apply fails_now. reflexivity.
  - reflexivity.
  - simpl. lia.
Defined.

(** C7 as the specification words it fails in two ways.  Against a service
    whose every page carries a continuation cursor the entry point returns
    nothing, however many requests it makes; and an exit raised while a
    request is in progress is not an [Exception], so it passes the handler
    and no response is returned. *)
Lemma main_does_not_always_return :
  (forall fuel, main cfg0 fuel (endless, []) = None)
  /\ main cfg0 1 (session_exit, [])
     = Some (Raised (SystemExit (lit "1")),
             (session [] [],
              [ EvList (folder_list_params cfg0 None)
                  (Raised (SystemExit (lit "1"))) ])).
Proof.
  split; [|reflexivity].
  assert (L : forall fuel fm tok tr,
             list_loop cfg0 fuel fm tok (endless, tr) = None).
  { induction fuel as [|fuel IH]; intros fm tok tr; [reflexivity|].
    assert (E : files_list (folder_list_params cfg0 tok) endless
                = (Returned {| files := Some [];
                               nextPageToken := Some (lit "next") |}, endless))
      by reflexivity.
    rewrite (list_loop_step cfg0 fuel fm tok endless tr _ endless E).
    apply IH. }
  intros fuel. rewrite main_steps. cbn [connect endless_service].
  unfold build_folder_path_map. rewrite L. reflexivity.
Qed.

Lemma empty_drive_creates_empty_object_witness :
  main cfg0 1 (session_empty_drive, [])
  = Some (Returned
            ([ (lit "status", VStr (lit "success"));
               (lit "message", VStr (lit "Map updated successfully"));
               (lit "file_id", VStr (lit "file-1")) ], 200%N),
          (session [] [],
           [ EvList (folder_list_params cfg0 None) (page [] None);
             EvList
               {| lp_q := lit "name = 'folder_map.txt' and 'folder-1' in parents and trashed = false";
                  lp_corpora := None; lp_driveId := None;
                  lp_includeItemsFromAllDrives := true;
                  lp_supportsAllDrives := true;
                  lp_fields := lit "files(id)"; lp_pageSize := None;
                  lp_pageToken := None |}
               (page [] None);
             EvCreate
               {| cp_body := {| md_name := lit "folder_map.txt";
                                md_parents := [Some (lit "folder-1")];
                                md_mimeType := lit "text/plain" |};
                  cp_media_body := {| m_body := [123; 125]%N;
                                      m_mimetype := lit "text/plain";
                                      m_resumable := true |};
                  cp_fields := lit "id"; cp_supportsAllDrives := true |}
               (Returned (only_id (lit "file-1"))) ])).
Proof.
  apply (empty_drive_creates_empty_object cfg0 session_empty_drive
           session_empty_drive
           {| files := Some []; nextPageToken := None |}
           (session [ page [] None ] [ Returned (only_id (lit "file-1")) ])
           {| files := Some []; nextPageToken := None |}
           (session [] [ Returned (only_id (lit "file-1")) ])
           (only_id (lit "file-1"))
           (session [] []));
    reflexivity.
Defined.

Lemma missing_id_still_success_witness :
  main cfg0 1 (session_create_without_id, [])
  = Some (Returned
            ([ (lit "status", VStr (lit "success"));
               (lit "message", VStr (lit "Map updated successfully"));
               (lit "file_id", VNone) ], 200%N),
          (session [] [],
           ([ EvList (folder_list_params cfg0 None)
                (page [ record "a" "A" None ] None) ]
              ++ [ EvList (search_params map_filename (SHARED_DRIVE_FOLDER cfg0))
                     (page [] None) ])
             ++ [ EvCreate
                    (create_params map_filename (SHARED_DRIVE_FOLDER cfg0)
                       (media_of [ (lit "a", {| name := lit "A"; parent := None |}) ]))
                    (Returned {| f_id := None; f_name := None;
                                 f_parents := None |}) ])).
Proof.
  refine (proj2 (missing_id_still_success cfg0 1 session_create_without_id []
                   session_create_without_id
                   [ (lit "a", {| name := lit "A"; parent := None |}) ]
                   (session [ page [] None ]
                      [ Returned {| f_id := None; f_name := None;
                                    f_parents := None |} ])
                   [ EvList (folder_list_params cfg0 None)
                       (page [ record "a" "A" None ] None) ]
                   {| files := Some []; nextPageToken := None |}
                   (session []
                      [ Returned {| f_id := None; f_name := None;
                                    f_parents := None |} ])
                   {| f_id := None; f_name := None; f_parents := None |}
                   (session [] [])
                   _ _ _ _) _ _);
    reflexivity.
Defined.

(** ** Publishing twice, on the reference drive *)

Lemma starts_with_app p r : starts_with p (p ++ r) = Some r.
Proof.
  unfold starts_with.
  rewrite firstn_app, Nat.sub_diag, firstn_all, app_nil_r, str_eqb_refl.
  rewrite skipn_app, skipn_all, Nat.sub_diag. reflexivity.
Qed.

Lemma read_quoted_plain s rest :
  plain s = true -> read_quoted (s ++ 39%N :: rest) = Some (s, rest).
Proof.
  induction s as [|c s IH]; cbn [plain forallb app read_quoted].
  - intros _. reflexivity.
  - intros P. apply andb_true_iff in P. destruct P as [Pc Ps].
    apply andb_true_iff in Pc. destruct Pc as [Q B].
    apply negb_true_iff in Q. apply negb_true_iff in B.
    rewrite Q, B, (IH Ps). reflexivity.
Qed.

Lemma read_terms_more fuel s t rest :
  read_term s = Some (t, lit " and " ++ rest) ->
  read_terms (S fuel) s
  = match read_terms fuel rest with
    | Some ts => Some (t :: ts)
    | None => None
    end.
Proof. intros E. cbn [read_terms]. rewrite E. reflexivity. Qed.

Lemma read_terms_last fuel s t :
  read_term s = Some (t, []) -> read_terms (S fuel) s = Some [t].
Proof. intros E. cbn [read_terms]. rewrite E. reflexivity. Qed.

Section ReferenceDrive.

Variable folder_id filename : pystr.

Local Abbreviation sp := (search_params filename (Some folder_id)).

(** The drive reads the filter of the search as the program means it, when
    neither text holds a quote or a backslash. *)
Lemma read_filter_search :
  plain filename = true -> plain folder_id = true ->
  read_filter (search_query filename (Some folder_id))
  = Some [NameIs filename; InParents folder_id; NotTrashed].
Proof.
  intros Pn Pf.
  assert (Fuel : exists n,
             S (List.length (search_query filename (Some folder_id)))
             = S (S (S n))).
  { unfold search_query. rewrite length_app. simpl. eauto. }
  destruct Fuel as [n Fuel]. unfold read_filter. rewrite Fuel.
  change (search_query filename (Some folder_id))
    with (lit "name = '" ++ filename
            ++ 39%N :: lit " and "
            ++ 39%N :: folder_id
            ++ 39%N :: lit " in parents" ++ lit " and " ++ lit "trashed = false").
  rewrite (read_terms_more _ _ (NameIs filename)
             (39%N :: folder_id
                ++ 39%N :: lit " in parents" ++ lit " and "
                ++ lit "trashed = false")).
  2:{ transitivity
        (match read_quoted
                 (filename
                    ++ 39%N :: lit " and "
                    ++ 39%N :: folder_id
                    ++ 39%N :: lit " in parents" ++ lit " and "
                    ++ lit "trashed = false") with
         | Some (n', rest) => Some (NameIs n', rest)
         | None => None
         end); [reflexivity|].
      rewrite (read_quoted_plain _ _ Pn). reflexivity. }
  rewrite (read_terms_more _ _ (InParents folder_id) (lit "trashed = false")).
  2:{ cbn [read_term]. change (39 =? 39)%N with true. cbv iota.
      rewrite (read_quoted_plain _ _ Pf), starts_with_app. reflexivity. }
  rewrite (read_terms_last _ _ NotTrashed); reflexivity.
Qed.

Lemma drive_list_search (s : Drive) :
  plain filename = true -> plain folder_id = true ->
  drive_list sp s
  = (Returned {| files := Some (map (project (lit "files(id)"))
                                  (filter (named_in filename folder_id) s));
                 nextPageToken := None |}, s).
Proof.
  intros Pn Pf. unfold drive_list. cbn [lp_q lp_fields search_params].
  rewrite (read_filter_search Pn Pf).
  rewrite (filter_ext _ (named_in filename folder_id)); [reflexivity|].
  intros f. cbn [forallb satisfies]. unfold named_in.
  rewrite andb_true_r, andb_assoc. reflexivity.
Qed.

Lemma named_in_touch id media f :
  named_in filename folder_id (touch id media f)
  = named_in filename folder_id f.
Proof. unfold touch. destruct (has_id id f); reflexivity. Qed.

Lemma filter_named_in_touch id media (s : Drive) :
  filter (named_in filename folder_id) (map (touch id media) s)
  = map (touch id media) (filter (named_in filename folder_id) s).
Proof.
  induction s as [|f s IH]; simpl; [reflexivity|].
  rewrite named_in_touch.
  destruct (named_in filename folder_id f); simpl; now rewrite IH.
Qed.

Lemma has_id_refl f : has_id (sf_id f) f = true.
Proof. apply str_eqb_refl. Qed.

Lemma in_existsb_has_id f (s : Drive) :
  In f s -> existsb (has_id (sf_id f)) s = true.
Proof.
  intros Hin. apply existsb_exists. exists f. split; [exact Hin|].
  apply has_id_refl.
Qed.

(** What an update of the file's own id leaves of it. *)
Lemma touch_own id media f :
  sf_id f = id ->
  sf_id (touch id media f) = id /\ sf_content (touch id media f) = m_body media.
Proof.
  intros <-. unfold touch. rewrite has_id_refl. split; reflexivity.
Qed.

(** A publish that finds the file [f] first updates it. *)
Lemma publish_updates m (s : Drive) tr f rest :
  plain filename = true -> plain folder_id = true ->
  filter (named_in filename folder_id) s = f :: rest ->
  upload_map_to_drive (Some folder_id) filename m (s, tr)
  = Some (Returned (Some (sf_id f)),
          (map (touch (sf_id f) (media_of m)) s,
           (tr ++ [EvList sp
                     (Returned
                        {| files := Some (map (project (lit "files(id)"))
                                            (f :: rest));
                           nextPageToken := None |})])
             ++ [EvUpdate (update_params (sf_id f) (media_of m))
                   (Returned (only_id (sf_id f)))])).
Proof.
  intros Pn Pf F. rewrite upload_map_to_drive_steps. cbv zeta.
  cbn [files_list files_update drive_service].
  rewrite (drive_list_search s Pn Pf), F. cbn [get_files files map].
  change (f_id (project (lit "files(id)") f)) with (Some (sf_id f)).
  cbv iota beta. unfold drive_update.
  change (up_fileId (update_params (sf_id f) (media_of m))) with (sf_id f).
  rewrite in_existsb_has_id.
  - reflexivity.
  - assert (Hin : In f (filter (named_in filename folder_id) s))
      by (rewrite F; left; reflexivity).
    apply filter_In in Hin. tauto.
Qed.

(** A publish that finds no file creates one. *)
Lemma publish_creates m (s : Drive) tr :
  plain filename = true -> plain folder_id = true ->
  filter (named_in filename folder_id) s = [] ->
  let created :=
    {| sf_id := fresh_id s; sf_name := filename; sf_parents := [folder_id];
       sf_mimeType := lit "text/plain"; sf_content := json_dumps m;
       sf_trashed := false |} in
  upload_map_to_drive (Some folder_id) filename m (s, tr)
  = Some (Returned (Some (fresh_id s)),
          (s ++ [created],
           (tr ++ [EvList sp
                     (Returned {| files := Some []; nextPageToken := None |})])
             ++ [EvCreate (create_params filename (Some folder_id) (media_of m))
                   (Returned (only_id (fresh_id s)))])).
Proof.
  intros Pn Pf F created. rewrite upload_map_to_drive_steps. cbv zeta.
  cbn [files_list files_create drive_service].
  rewrite (drive_list_search s Pn Pf), F. reflexivity.
Qed.

(** C5: publishing twice in a row, with nothing else writing to the drive
    in between, where the container holds at most one file of the target
    name and neither the name nor the container id holds a quote or a
    backslash.  The first publish returns an id.  The search of the second
    is answered with exactly the file of that id; the second issues an
    update of it, carrying its own serialized map, and no create, and
    returns the same id.  The drive has as many files as before, and the
    one map file of the container has that id and the second serialized
    map as its content. *)
Theorem publish_twice_is_idempotent (m1 m2 : FolderMap) (s : Drive) tr :
  plain filename = true -> plain folder_id = true ->
  List.length (filter (named_in filename folder_id) s) <= 1 ->
  let search :=
    {| lp_q := lit "name = '" ++ filename ++ lit "' and '" ++ folder_id
                 ++ lit "' in parents and trashed = false";
       lp_corpora := None; lp_driveId := None;
       lp_includeItemsFromAllDrives := true; lp_supportsAllDrives := true;
       lp_fields := lit "files(id)"; lp_pageSize := None;
       lp_pageToken := None |} in
  exists id s1 tr1 s2 file,
    upload_map_to_drive (Some folder_id) filename m1 (s, tr)
    = Some (Returned (Some id), (s1, tr1))
    /\ upload_map_to_drive (Some folder_id) filename m2 (s1, tr1)
       = Some (Returned (Some id),
               (s2,
                tr1 ++ [ EvList search
                           (Returned
                              {| files := Some [ {| f_id := Some id;
                                                    f_name := None;
                                                    f_parents := None |} ];
                                 nextPageToken := None |});
                         EvUpdate
                           {| up_fileId := id;
                              up_media_body :=
                                {| m_body := json_dumps m2;
                                   m_mimetype := lit "text/plain";
                                   m_resumable := true |};
                              up_fields := lit "id";
                              up_supportsAllDrives := true |}
                           (Returned {| f_id := Some id; f_name := None;
                                        f_parents := None |}) ]))
    /\ List.length s2 = List.length s1
    /\ filter (named_in filename folder_id) s2 = [file]
    /\ sf_id file = id
    /\ sf_content file = json_dumps m2.
Proof.
  intros Pn Pf One search.
  destruct (filter (named_in filename folder_id) s) as [|f [|g rest]] eqn:F;
    [| |simpl in One; lia].
  - pose (created :=
      {| sf_id := fresh_id s; sf_name := filename; sf_parents := [folder_id];
         sf_mimeType := lit "text/plain"; sf_content := json_dumps m1;
         sf_trashed := false |}).
    assert (F1 : filter (named_in filename folder_id) (s ++ [created])
                 = [created]).
    { rewrite filter_app, F. simpl. unfold named_in at 1. simpl.
      rewrite !str_eqb_refl. reflexivity. }
    destruct (touch_own (fresh_id s) (media_of m2) created eq_refl)
      as [Id Content].
    exists (fresh_id s), (s ++ [created]). eexists.
    exists (map (touch (fresh_id s) (media_of m2)) (s ++ [created])).
    exists (touch (fresh_id s) (media_of m2) created).
    split; [apply (publish_creates m1 s tr Pn Pf F)|].
    split.
    { rewrite (publish_updates m2 (s ++ [created]) _ created [] Pn Pf F1).
      rewrite <- app_assoc. reflexivity. }
    split; [apply length_map|].
    split; [rewrite filter_named_in_touch, F1; reflexivity|].
    split; [exact Id | exact Content].
  - pose (f1 := touch (sf_id f) (media_of m1) f).
    destruct (touch_own (sf_id f) (media_of m1) f eq_refl) as [Id1 _].
    fold f1 in Id1.
    destruct (touch_own (sf_id f) (media_of m2) f1 Id1) as [Id2 Content].
    assert (F1 : filter (named_in filename folder_id)
                   (map (touch (sf_id f) (media_of m1)) s)
                 = [f1]).
    { rewrite filter_named_in_touch, F. reflexivity. }
    exists (sf_id f), (map (touch (sf_id f) (media_of m1)) s). eexists.
    exists (map (touch (sf_id f) (media_of m2))
              (map (touch (sf_id f) (media_of m1)) s)).
    exists (touch (sf_id f) (media_of m2) f1).
    split; [apply (publish_updates m1 s tr f [] Pn Pf F)|].
    split.
    { rewrite (publish_updates m2 _ _ f1 [] Pn Pf F1), Id1.
      rewrite <- app_assoc. cbn [map]. unfold project. simpl. rewrite Id1.
      reflexivity. }
    split; [apply length_map|].
    split; [rewrite filter_named_in_touch, F1; reflexivity|].
    split; [exact Id2 | exact Content].
Qed.

End ReferenceDrive.

(** ** Reading the serialized map back *)

Section JsonRoundTrip.

Local Open Scope N_scope.

Lemma hex_value_digit d : d < 16 -> hex_value (hex_digit d) = Some d.
Proof.
  intros L. unfold hex_digit, hex_value.
  destruct (d <? 10) eqn:E.
  - apply N.ltb_lt in E.
    replace ((48 <=? 48 + d) && (48 + d <=? 57)) with true
      by (symmetry; apply andb_true_iff; split; apply N.leb_le; lia).
    f_equal. lia.
  - apply N.ltb_ge in E.
    replace ((48 <=? 87 + d) && (87 + d <=? 57)) with false
      by (symmetry; apply andb_false_iff; right; apply N.leb_gt; lia).
    replace ((97 <=? 87 + d) && (87 + d <=? 102)) with true
      by (symmetry; apply andb_true_iff; split; apply N.leb_le; lia).
    f_equal. lia.
Qed.

Lemma hex4_digits n :
  n < 65536 ->
  (4096 * (N.shiftr n 12 mod 16) + 256 * (N.shiftr n 8 mod 16)
   + 16 * (N.shiftr n 4 mod 16) + n mod 16) = n.
Proof.
  intros L. rewrite !N.shiftr_div_pow2.
  change (2 ^ 12) with (16 * 16 * 16). change (2 ^ 8) with (16 * 16).
  change (2 ^ 4) with 16.
  rewrite <- !N.Div0.div_div.
  pose proof (N.div_mod n 16). pose proof (N.div_mod (n / 16) 16).
  pose proof (N.div_mod (n / 16 / 16) 16).
  pose proof (N.mod_lt n 16). pose proof (N.mod_lt (n / 16) 16).
  pose proof (N.mod_lt (n / 16 / 16) 16).
  assert (n / 16 / 16 / 16 < 16).
  { rewrite !N.Div0.div_div. apply N.Div0.div_lt_upper_bound. exact L. }
  rewrite (N.mod_small (n / 16 / 16 / 16) 16) by assumption.
  lia.
Qed.

Lemma land_shiftl_small a b k : b < 2 ^ k -> N.land (N.shiftl a k) b = 0.
Proof.
  intros L. apply N.bits_inj. intros i. rewrite N.land_spec, N.bits_0.
  destruct (N.lt_ge_cases i k) as [Hi|Hi].
  - rewrite N.shiftl_spec_low by exact Hi. reflexivity.
  - replace (N.testbit b i) with false; [apply andb_false_r|].
    symmetry. rewrite <- (N.mod_small b (2 ^ k)) by exact L.
    apply N.mod_pow2_bits_high. exact Hi.
Qed.

Lemma lor_shiftl_small a b k :
  b < 2 ^ k -> N.lor (N.shiftl a k) b = N.shiftl a k + b.
Proof.
  intros L. pose proof (land_shiftl_small a b k L) as Z.
  rewrite (N.add_nocarry_lxor _ _ Z). symmetry. apply N.lxor_lor, Z.
Qed.

Lemma lor_const_small (a b : N) :
  b < 1024 -> N.lor (1024 * a) b = 1024 * a + b.
Proof.
  intros L. rewrite (N.mul_comm 1024 a).
  change 1024 with (2 ^ 10). rewrite <- N.shiftl_mul_pow2.
  apply lor_shiftl_small. exact L.
Qed.

Lemma high_half_value n :
  n < 1048576 ->
  N.lor 55296 (N.land (N.shiftr n 10) 1023) = 55296 + n / 1024.
Proof.
  intros L. change 1023 with (N.ones 10). rewrite N.land_ones.
  rewrite N.shiftr_div_pow2. change (2 ^ 10) with 1024.
  assert (n / 1024 < 1024) by (apply N.Div0.div_lt_upper_bound; lia).
  rewrite N.mod_small by assumption.
  change 55296 with (1024 * 54). apply lor_const_small. assumption.
Qed.

Lemma low_half_value n :
  N.lor 56320 (N.land n 1023) = 56320 + n mod 1024.
Proof.
  change 1023 with (N.ones 10). rewrite N.land_ones.
  change (2 ^ 10) with 1024.
  change 56320 with (1024 * 55). apply lor_const_small.
  apply N.mod_lt. discriminate.
Qed.

Lemma join_surrogates_halves n :
  join_surrogates (55296 + n / 1024) (56320 + n mod 1024) = 65536 + n.
Proof.
  unfold join_surrogates.
  rewrite (N.add_comm 55296), (N.add_comm 56320), !N.add_sub.
  rewrite lor_shiftl_small by (apply N.mod_lt; discriminate).
  rewrite N.shiftl_mul_pow2. change (2 ^ 10) with 1024.
  pose proof (N.div_mod n 1024) as E.
  revert E. generalize (n / 1024) (n mod 1024). intros a b E. lia.
Qed.

Lemma decode_hex4 n :
  n < 65536 ->
  decode_uXXXX (hex_digit (N.shiftr n 12 mod 16)) (hex_digit (N.shiftr n 8 mod 16))
    (hex_digit (N.shiftr n 4 mod 16)) (hex_digit (n mod 16)) = Some n.
Proof.
  intros L. unfold decode_uXXXX.
  rewrite !hex_value_digit by (apply N.mod_lt; discriminate).
  f_equal. apply hex4_digits, L.
Qed.

Lemma scanstring_u a b c d r2 uni :
  decode_uXXXX a b c d = Some uni ->
  scanstring (92 :: 117 :: a :: b :: c :: d :: r2)
  = if is_high uni then
      match r2 with
      | b1 :: u1 :: r3 =>
          if ((b1 =? 92) && (u1 =? 117))%N then
            match r3 with
            | a2 :: b2 :: c2 :: d2 :: r4 =>
                match decode_uXXXX a2 b2 c2 d2 with
                | None => None
                | Some uni2 =>
                    if is_low uni2 then
                      cons_char (join_surrogates uni uni2) (scanstring r4)
                    else cons_char uni (scanstring r2)
                end
            | _ => None
            end
          else cons_char uni (scanstring r2)
      | _ => cons_char uni (scanstring r2)
      end
    else cons_char uni (scanstring r2).
Proof.
  intros D. cbn [scanstring]. 
  change (92 =? 34) with false. change (92 =? 92) with true.
  change (117 =? 117) with true. cbv iota. rewrite D. reflexivity.
Qed.

Lemma scanstring_u_keep a b c d r2 uni :
  decode_uXXXX a b c d = Some uni ->
  (is_high uni = true -> after_high_ok r2) ->
  scanstring (92 :: 117 :: a :: b :: c :: d :: r2) = cons_char uni (scanstring r2).
Proof.
  intros D Ok. rewrite (scanstring_u _ _ _ _ _ _ D).
  destruct (is_high uni); [|reflexivity].
  specialize (Ok eq_refl). unfold after_high_ok in Ok.
  destruct r2 as [|b1 [|u1 r3]]; try reflexivity.
  destruct ((b1 =? 92) && (u1 =? 117)); [|reflexivity].
  destruct r3 as [|a2 [|b2 [|c2 [|d2 r4]]]]; try contradiction.
  destruct (decode_uXXXX a2 b2 c2 d2); [|contradiction].
  rewrite Ok. reflexivity.
Qed.

Lemma high_half_range h :
  h < 1024 ->
  55296 + h < 65536 /\ is_high (55296 + h) = true
  /\ is_low (55296 + h) = false.
Proof.
  intros L. unfold is_high, is_low. repeat split; [lia | |].
  - apply andb_true_iff. split; apply N.leb_le; lia.
  - apply andb_false_iff. left. apply N.leb_gt. lia.
Qed.

Lemma low_half_range l :
  l < 1024 -> 56320 + l < 65536 /\ is_low (56320 + l) = true.
Proof.
  intros L. unfold is_low. split; [lia|].
  apply andb_true_iff. split; apply N.leb_le; lia.
Qed.

Lemma escape_char_cases c :
  c < 1114112 ->
  (exists x, escape_char c = [92; x] /\ (x =? 117) = false
             /\ backslash x = Some c)
  \/ (escape_char c = [c] /\ (c =? 34) = false /\ (c =? 92) = false
      /\ (c <? 32) = false)
  \/ (escape_char c = 92 :: 117 :: hex4 c /\ c < 65536)
  \/ (escape_char c
      = 92 :: 117 :: hex4 (55296 + (c - 65536) / 1024)
          ++ 92 :: 117 :: hex4 (56320 + (c - 65536) mod 1024)
      /\ 65536 <= c).
Proof.
  intros L. unfold escape_char.
  destruct (c =? 92) eqn:E92;
    [apply N.eqb_eq in E92; subst; left; exists 92; auto|].
  destruct (c =? 34) eqn:E34;
    [apply N.eqb_eq in E34; subst; left; exists 34; auto|].
  destruct (c =? 8) eqn:E8;
    [apply N.eqb_eq in E8; subst; left; exists 98; auto|].
  destruct (c =? 12) eqn:E12;
    [apply N.eqb_eq in E12; subst; left; exists 102; auto|].
  destruct (c =? 10) eqn:E10;
    [apply N.eqb_eq in E10; subst; left; exists 110; auto|].
  destruct (c =? 13) eqn:E13;
    [apply N.eqb_eq in E13; subst; left; exists 114; auto|].
  destruct (c =? 9) eqn:E9;
    [apply N.eqb_eq in E9; subst; left; exists 116; auto|].
  destruct ((32 <=? c) && (c <=? 126)) eqn:P.
  - right; left. apply andb_true_iff in P. destruct P as [P _].
    apply N.leb_le in P. repeat split; auto. apply N.ltb_ge, P.
  - destruct (c <? 65536) eqn:B.
    + right; right; left. apply N.ltb_lt in B. split; [reflexivity | exact B].
    + right; right; right. apply N.ltb_ge in B. split; [|exact B].
      rewrite high_half_value by lia. rewrite low_half_value. reflexivity.
Qed.

Lemma scanstring_escape_char c t :
  c < 1114112 ->
  (is_high c = true -> after_high_ok t) ->
  scanstring (escape_char c ++ t) = cons_char c (scanstring t).
Proof.
  intros L Ok.
  destruct (escape_char_cases c L)
    as [(x & -> & Hx & B) | [(-> & E34 & E92 & E32) | [(-> & B) | (-> & B)]]].
  - cbn [app scanstring].
    change (92 =? 34) with false. change (92 =? 92) with true. cbv iota.
    rewrite Hx, B. reflexivity.
  - cbn [app scanstring]. rewrite E34, E92, E32. reflexivity.
  - cbn [app hex4].
    apply scanstring_u_keep; [apply decode_hex4, B | exact Ok].
  - set (n := c - 65536) in *.
    assert (Ln : n < 1048576) by (unfold n; lia).
    assert (Dv : n / 1024 < 1024) by (apply N.Div0.div_lt_upper_bound; lia).
    assert (Md : n mod 1024 < 1024) by (apply N.mod_lt; discriminate).
    destruct (high_half_range _ Dv) as (H1 & H2 & _).
    destruct (low_half_range _ Md) as (L1 & L2).
    cbn [app hex4].
    rewrite (scanstring_u _ _ _ _ _ _ (decode_hex4 _ H1)), H2.
    change (92 =? 92) with true. change (117 =? 117) with true. cbv iota.
    cbn [andb].
    rewrite (decode_hex4 _ L1), L2.
    rewrite join_surrogates_halves. unfold n.
    replace (65536 + (c - 65536)) with c by lia. reflexivity.
Qed.

Lemma after_high_ok_escape c t :
  c < 1114112 -> is_low c = false -> after_high_ok (escape_char c ++ t).
Proof.
  intros L Low.
  destruct (escape_char_cases c L)
    as [(x & -> & Hx & B) | [(-> & E34 & E92 & E32) | [(-> & B) | (-> & B)]]].
  - cbn [app after_high_ok]. rewrite Hx, andb_false_r. exact I.
  - cbn [app]. destruct t as [|u1 r3]; cbn [after_high_ok]; [exact I|].
    rewrite E92. exact I.
  - cbn [app hex4 after_high_ok].
    change ((92 =? 92) && (117 =? 117)) with true. cbv iota.
    rewrite (decode_hex4 c B). exact Low.
  - set (n := c - 65536) in *.
    assert (Ln : n < 1048576) by (unfold n; lia).
    assert (Dv : n / 1024 < 1024) by (apply N.Div0.div_lt_upper_bound; lia).
    cbn [app hex4 after_high_ok].
    change ((92 =? 92) && (117 =? 117)) with true. cbv iota.
    destruct (high_half_range _ Dv) as (H1 & _ & H3).
    rewrite (decode_hex4 _ H1). exact H3.
Qed.

Lemma scanstring_escape_body s :
  json_text s = true ->
  forall rest, scanstring (escape_body s ++ dquote :: rest) = Some (s, rest).
Proof.
  induction s as [|c s IH]; intros J rest.
  - reflexivity.
  - cbn [json_text] in J. apply andb_true_iff in J. destruct J as [J Js].
    apply andb_true_iff in J. destruct J as [Lc Pair].
    apply N.ltb_lt in Lc.
    cbn [escape_body flat_map]. rewrite <- app_assoc.
    fold (escape_body s).
    rewrite scanstring_escape_char; [rewrite (IH Js); reflexivity | exact Lc |].
    intros Hc. destruct s as [|c' s'].
    + cbn [escape_body flat_map app after_high_ok]. unfold dquote.
      destruct rest; exact I.
    + cbn [escape_body flat_map]. rewrite <- app_assoc.
      cbn [json_text] in Js. apply andb_true_iff in Js. destruct Js as [Js _].
      apply andb_true_iff in Js. destruct Js as [Lc' _]. apply N.ltb_lt in Lc'.
      apply after_high_ok_escape; [exact Lc'|].
      rewrite Hc in Pair. cbn [andb] in Pair.
      destruct (is_low c'); [discriminate | reflexivity].
Qed.

Lemma skip_ws_newline_indent k t : skip_ws (newline_indent k ++ t) = skip_ws t.
Proof.
  unfold newline_indent. cbn [app skip_ws].
  change (is_ws 10) with true. cbv iota.
  generalize (4 * k)%nat as j. induction j as [|j IH]; [reflexivity|].
  cbn [repeat app skip_ws]. change (is_ws 32) with true. exact IH.
Qed.

Lemma enc_app s t :
  encode_basestring_ascii s ++ t = dquote :: escape_body s ++ dquote :: t.
Proof.
  unfold encode_basestring_ascii. cbn [app]. now rewrite <- app_assoc.
Qed.

Lemma scan_once_string f s rest :
  json_text s = true ->
  scan_once (S f) (encode_basestring_ascii s ++ rest) = Some (JStr s, rest).
Proof.
  intros J. rewrite enc_app. cbn [scan_once].
  change (dquote =? 34) with true. cbv iota.
  now rewrite scanstring_escape_body.
Qed.

Lemma scan_once_opt f v rest :
  json_text_opt v = true ->
  scan_once (S f) (encode_opt v ++ rest) = Some (opt_json v, rest).
Proof.
  destruct v as [s|]; intros J.
  - apply scan_once_string, J.
  - reflexivity.
Qed.

Lemma skip_ws_enc s t :
  skip_ws (encode_basestring_ascii s ++ t) = encode_basestring_ascii s ++ t.
Proof. rewrite enc_app. reflexivity. Qed.

Lemma skip_ws_opt v t : skip_ws (encode_opt v ++ t) = encode_opt v ++ t.
Proof. destruct v; [apply skip_ws_enc | reflexivity]. Qed.

Section ObjectLoop.

Variable scan : pystr -> option (json * pystr).
Variables (key vtext : pystr) (value : json).
Hypothesis Hkey : json_text key = true.
Hypothesis Hstart : forall r, skip_ws (vtext ++ r) = vtext ++ r.
Hypothesis Hscan : forall r, scan (vtext ++ r) = Some (value, r).

Lemma object_loop_continue fuel pairs lvl rest :
  object_loop scan (S fuel) pairs
    (escape_body key ++ dquote :: lit ": " ++ vtext ++ lit ","
       ++ newline_indent lvl ++ dquote :: rest)
  = object_loop scan fuel (pairs ++ [(key, value)]) rest.
Proof.
  cbn [object_loop]. rewrite (scanstring_escape_body key Hkey).
  change (lit ": " ++ vtext ++ lit "," ++ newline_indent lvl ++ dquote :: rest)
    with (58 :: 32 :: vtext ++ 44 :: newline_indent lvl ++ dquote :: rest).
  cbn [skip_ws]. change (is_ws 58) with false. cbv iota.
  change (58 =? 58) with true. cbv iota.
  cbn [skip_ws]. change (is_ws 32) with true. cbv iota.
  rewrite Hstart, Hscan.
  cbn [skip_ws]. change (is_ws 44) with false. cbv iota.
  change (44 =? 125) with false. change (44 =? 44) with true. cbv iota.
  rewrite skip_ws_newline_indent. reflexivity.
Qed.

Lemma object_loop_last fuel pairs lvl rest :
  object_loop scan (S fuel) pairs
    (escape_body key ++ dquote :: lit ": " ++ vtext
       ++ newline_indent lvl ++ lit "}" ++ rest)
  = Some (JObj (dict_of_pairs (pairs ++ [(key, value)])), rest).
Proof.
  cbn [object_loop]. rewrite (scanstring_escape_body key Hkey).
  change (lit ": " ++ vtext ++ newline_indent lvl ++ lit "}" ++ rest)
    with (58 :: 32 :: vtext ++ newline_indent lvl ++ 125 :: rest).
  cbn [skip_ws]. change (is_ws 58) with false. cbv iota.
  change (58 =? 58) with true. cbv iota.
  cbn [skip_ws]. change (is_ws 32) with true. cbv iota.
  rewrite Hstart, Hscan, skip_ws_newline_indent. reflexivity.
Qed.

End ObjectLoop.

Lemma scan_once_object f lvl t :
  scan_once (S f) (lit "{" ++ newline_indent lvl ++ dquote :: t)
  = object_loop (scan_once f) f [] t.
Proof.
  cbn [scan_once app lit map list_ascii_of_string].
  change (N_of_ascii "{") with 123.
  change (123 =? 34) with false. change (123 =? 123) with true. cbv iota.
  rewrite skip_ws_newline_indent. reflexivity.
Qed.

Lemma scan_once_entry f e rest :
  json_text (name e) = true -> json_text_opt (parent e) = true ->
  scan_once (S (S (S f))) (encode_entry e ++ rest) = Some (entry_value e, rest).
Proof.
  intros Jn Jp. unfold encode_entry.
  repeat rewrite <- app_assoc.
  rewrite (enc_app (lit "name")), (enc_app (lit "parent")).
  rewrite scan_once_object.
  rewrite (object_loop_continue (scan_once (S (S f))) (lit "name")
             (encode_basestring_ascii (name e)) (JStr (name e))).
  - rewrite (object_loop_last (scan_once (S (S f))) (lit "parent")
               (encode_opt (parent e)) (opt_json (parent e))).
    + reflexivity.
    + reflexivity.
    + apply skip_ws_opt.
    + intros r. apply scan_once_opt, Jp.
  - reflexivity.
  - apply skip_ws_enc.
  - intros r. apply scan_once_string, Jn.
Qed.

Lemma skip_ws_entry e t : skip_ws (encode_entry e ++ t) = encode_entry e ++ t.
Proof. reflexivity. Qed.

Lemma object_loop_items f items :
  forall pairs k e fuel rest,
    json_text_map ((k, e) :: items) = true ->
    (List.length items < fuel)%nat ->
    object_loop (scan_once (S (S (S f)))) fuel pairs
      (escape_body k ++ dquote :: lit ": " ++ encode_entry e
         ++ encode_more items ++ newline_indent 0 ++ lit "}" ++ rest)
    = Some (JObj (dict_of_pairs (pairs ++ map item_value ((k, e) :: items))),
            rest).
Proof.
  induction items as [|[k' e'] items IH]; intros pairs k e fuel rest J Hfuel;
    (destruct fuel as [|fuel]; [simpl in Hfuel; lia|]);
    cbn [json_text_map forallb fst snd] in J;
    apply andb_true_iff in J; destruct J as [J Js];
    apply andb_true_iff in J; destruct J as [J Jp];
    apply andb_true_iff in J; destruct J as [Jk Jn].
  - cbn [encode_more app].
    apply (object_loop_last (scan_once (S (S (S f)))) k (encode_entry e)
             (entry_value e)); auto using skip_ws_entry.
    intros r. apply scan_once_entry; assumption.
  - change (encode_more ((k', e') :: items))
      with (lit "," ++ newline_indent 1
              ++ encode_item (k', e') ++ encode_more items).
    unfold encode_item. cbn [fst snd].
    repeat rewrite <- app_assoc. rewrite (enc_app k').
    rewrite (object_loop_continue (scan_once (S (S (S f)))) k (encode_entry e)
               (entry_value e)); auto using skip_ws_entry.
    + rewrite IH; [|exact Js | simpl in Hfuel; lia].
      cbn [map]. rewrite <- app_assoc. reflexivity.
    + intros r. apply scan_once_entry; assumption.
Qed.

Lemma dict_of_pairs_nodup {V : Type} (l : list (pystr * V)) :
  NoDup (map fst l) -> dict_of_pairs l = l.
Proof.
  unfold dict_of_pairs.
  assert (G : forall acc, NoDup (map fst (acc ++ l)) ->
              fold_left (fun d kv => dict_set (fst kv) (snd kv) d) l acc
              = acc ++ l).
  { induction l as [|[k v] l IH]; intros acc ND; cbn [fold_left].
    - now rewrite app_nil_r.
    - cbn [fst snd]. rewrite dict_set_fresh.
      + rewrite IH; rewrite <- app_assoc; [reflexivity | exact ND].
      + rewrite map_app in ND. cbn [map fst] in ND.
        apply NoDup_remove_2 in ND. intros Hin. apply ND.
        apply in_or_app. left. exact Hin. }
  intros ND. apply (G []). exact ND.
Qed.

Lemma length_encode_more items :
  (List.length items <= List.length (encode_more items))%nat.
Proof.
  induction items as [|kv items IH]; [apply le_n|].
  change (encode_more (kv :: items))
    with (lit "," ++ newline_indent 1 ++ encode_item kv ++ encode_more items).
  rewrite !length_app. cbn [List.length lit map list_ascii_of_string].
  lia.
Qed.

(** C9, as the code has it: for a folder map (a dict: each key once) whose
    strings hold no high surrogate directly before a low one, reading the
    serialized text back gives the value of the map itself: the same keys,
    and under each key the same name and parent, [None] coming back as
    [None].  The uploaded bytes are the characters of that text
    ([utf8_encode_json_dumps]). *)
Theorem json_round_trip (m : FolderMap) :
  NoDup (keys m) ->
  json_text_map m = true ->
  json_loads (json_dumps m) = Some (folder_map_value m).
Proof.
  intros ND J. destruct m as [|[k e] items]; [reflexivity|].
  unfold json_loads.
  assert (Len : exists f, List.length (json_dumps ((k, e) :: items))
                          = S (S (S f)) /\ (List.length items < S (S (S f)))%nat).
  { unfold json_dumps. rewrite !length_app.
    pose proof (length_encode_more items) as Lm.
    cbn [List.length lit map list_ascii_of_string newline_indent].
    match goal with
    | |- exists f, ?n = _ /\ _ => exists (n - 3)%nat
    end. lia. }
  destruct Len as (f & -> & Hfuel).
  unfold json_dumps, encode_item. cbn [fst snd].
  change (skip_ws (lit "{" ++ ?t)) with (lit "{" ++ t).
  repeat rewrite <- app_assoc. rewrite (enc_app k).
  rewrite scan_once_object.
  rewrite <- (app_nil_r (lit "}")).
  rewrite (object_loop_items f items [] k e _ [] J Hfuel).
  cbn [skip_ws app]. unfold folder_map_value. f_equal. f_equal.
  apply (dict_of_pairs_nodup (map item_value ((k, e) :: items))).
  rewrite map_map. exact ND.
Qed.

(** *** What the decoder can return *)

Lemma hex_value_bound c x : hex_value c = Some x -> x < 16.
Proof.
  unfold hex_value.
  destruct ((48 <=? c) && (c <=? 57)) eqn:E1.
  { apply andb_true_iff in E1. destruct E1 as [A B].
    apply N.leb_le in A, B. intros [= <-]. lia. }
  destruct ((97 <=? c) && (c <=? 102)) eqn:E2.
  { apply andb_true_iff in E2. destruct E2 as [A B].
    apply N.leb_le in A, B. intros [= <-]. lia. }
  destruct ((65 <=? c) && (c <=? 70)) eqn:E3; [|discriminate].
  apply andb_true_iff in E3. destruct E3 as [A B].
  apply N.leb_le in A, B. intros [= <-]. lia.
Qed.

Lemma decode_uXXXX_bound a b c d uni :
  decode_uXXXX a b c d = Some uni -> uni < 65536.
Proof.
  unfold decode_uXXXX.
  destruct (hex_value a) as [x3|] eqn:A; [|discriminate].
  destruct (hex_value b) as [x2|] eqn:B; [|discriminate].
  destruct (hex_value c) as [x1|] eqn:C; [|discriminate].
  destruct (hex_value d) as [x0|] eqn:D; [|discriminate].
  apply hex_value_bound in A. apply hex_value_bound in B.
  apply hex_value_bound in C. apply hex_value_bound in D.
  intros E.
  enough (4096 * x3 + 256 * x2 + 16 * x1 + x0 < 65536) by congruence.
  lia.
Qed.

Lemma join_surrogates_range uni uni2 :
  is_high uni = true -> is_low uni2 = true ->
  65536 <= join_surrogates uni uni2 < 1114112.
Proof.
  unfold is_high, is_low, join_surrogates. intros H L.
  apply andb_true_iff in H, L. destruct H as [H1 H2], L as [L1 L2].
  apply N.leb_le in H1, H2, L1, L2.
  rewrite lor_shiftl_small by (change (2 ^ 10) with 1024; lia).
  rewrite N.shiftl_mul_pow2. change (2 ^ 10) with 1024. lia.
Qed.

Lemma json_text_cons c s :
  json_text (c :: s) = true <->
  c < 1114112
  /\ (forall c' tl, s = c' :: tl -> is_high c = true -> is_low c' = false)
  /\ json_text s = true.
Proof.
  cbn [json_text]. rewrite !andb_true_iff, N.ltb_lt. split.
  - intros [[L P] J]. repeat split; auto.
    intros c' tl -> Hc. rewrite Hc in P. simpl in P.
    destruct (is_low c'); [discriminate | reflexivity].
  - intros (L & P & J). repeat split; auto.
    destruct s as [|c' tl]; [reflexivity|].
    destruct (is_high c) eqn:Hc; [|reflexivity].
    rewrite (P c' tl eq_refl eq_refl). reflexivity.
Qed.

Lemma not_surrogate_not_high c : is_surrogate c = false -> is_high c = false.
Proof.
  unfold is_surrogate, is_high. rewrite !andb_false_iff, !N.leb_gt.
  intros [?|?]; [left | right]; lia.
Qed.

Lemma not_surrogate_not_low c : is_surrogate c = false -> is_low c = false.
Proof.
  unfold is_surrogate, is_low. rewrite !andb_false_iff, !N.leb_gt.
  intros [?|?]; [left | right]; lia.
Qed.

Lemma cons_char_some c r str rest :
  cons_char c r = Some (str, rest) ->
  exists tl, r = Some (tl, rest) /\ str = c :: tl.
Proof.
  destruct r as [[tl rest']|]; simpl; [|discriminate].
  intros [= <- <-]. eauto.
Qed.

Lemma backslash_plain esc ch :
  backslash esc = Some ch -> ch < 1114112 /\ is_surrogate ch = false.
Proof.
  unfold backslash.
  repeat match goal with
         | |- context [if (esc =? ?k) then _ else _] =>
             destruct (esc =? k); [intros [= <-]; split; reflexivity|]
         end.
  discriminate.
Qed.

Lemma scanstring_decoded_ok n :
  forall s, (List.length s <= n)%nat -> forallb raw_ok s = true -> decoded_ok s.
Proof.
  induction n as [|n IH]; intros s Hlen Raw str rest.
  { destruct s; [simpl; discriminate | simpl in Hlen; lia]. }
  destruct s as [|c r]; [simpl; discriminate|].
  cbn [forallb] in Raw. apply andb_true_iff in Raw. destruct Raw as [Rc Rr].
  unfold raw_ok in Rc. apply andb_true_iff in Rc. destruct Rc as [Lc Sc].
  apply N.ltb_lt in Lc. apply negb_true_iff in Sc.
  assert (Plain : forall ch t,
             ch < 1114112 -> is_surrogate ch = false ->
             (List.length t <= n)%nat -> forallb raw_ok t = true ->
             cons_char ch (scanstring t) = Some (str, rest) ->
             json_text str = true
             /\ (forall c' tl, str = c' :: tl -> is_low c' = true ->
                               starts_low_escape (c :: r))).
  { intros ch t Lch Sch Ht Rt R.
    apply cons_char_some in R. destruct R as (tl & R & ->).
    destruct (IH t Ht Rt tl rest R) as [J _]. split.
    - apply json_text_cons. repeat split; auto.
      intros c' tl' _ Hh. rewrite (not_surrogate_not_high _ Sch) in Hh.
      discriminate.
    - intros c' tl' [= <- <-] Hl.
      rewrite (not_surrogate_not_low _ Sch) in Hl. discriminate. }
  cbn [scanstring].
  destruct (c =? 34) eqn:E34.
  { intros [= <- <-]. split; [reflexivity | intros ? ? [=]]. }
  destruct (c =? 92) eqn:E92.
  2:{ destruct (c <? 32); [discriminate|].
      apply Plain; auto. simpl in Hlen. lia. }
  destruct r as [|esc r1]; [discriminate|].
  cbn [forallb] in Rr. apply andb_true_iff in Rr. destruct Rr as [_ Rr1].
  destruct (esc =? 117) eqn:Eu.
  2:{ destruct (backslash esc) as [ch|] eqn:B; [|discriminate].
      destruct (backslash_plain _ _ B).
      apply Plain; auto. simpl in Hlen. lia. }
  destruct r1 as [|a [|b [|c0 [|d r2]]]]; try discriminate.
  assert (Rr2 : forallb raw_ok r2 = true).
  { cbn [forallb] in Rr1. repeat (apply andb_true_iff in Rr1; destruct Rr1 as [_ Rr1]).
    exact Rr1. }
  assert (Hr2 : (List.length r2 <= n)%nat) by (simpl in Hlen; lia).
  apply N.eqb_eq in E92, Eu. subst c esc.
  destruct (decode_uXXXX a b c0 d) as [uni|] eqn:D; [|discriminate].
  pose proof (decode_uXXXX_bound _ _ _ _ _ D) as Bu.
  assert (Keep : (is_high uni = true -> ~ starts_low_escape r2) ->
                 cons_char uni (scanstring r2) = Some (str, rest) ->
                 json_text str = true
                 /\ (forall c' tl, str = c' :: tl -> is_low c' = true ->
                       starts_low_escape (92 :: 117 :: a :: b :: c0 :: d :: r2))).
  { intros NoLow R. apply cons_char_some in R. destruct R as (tl & R & ->).
    destruct (IH r2 Hr2 Rr2 tl rest R) as [J Low]. split.
    - apply json_text_cons. repeat split; [lia | | exact J].
      intros c' tl' -> Hh.
      destruct (is_low c') eqn:Hl; [|reflexivity].
      exfalso. apply (NoLow Hh). eapply Low; eauto.
    - intros c' tl' [= <- <-] Hl. do 6 eexists. eauto. }
  destruct (is_high uni) eqn:Hh; [|apply Keep; discriminate].
  destruct r2 as [|b1 [|u1 r3]];
    try (apply Keep; intros _ (? & ? & ? & ? & ? & ? & [=] & _)).
  destruct ((b1 =? 92) && (u1 =? 117)) eqn:Ebu.
  2:{ apply Keep. intros _ (? & ? & ? & ? & ? & ? & [= -> ->] & _).
      discriminate Ebu. }
  destruct r3 as [|a2 [|b2 [|c2 [|d2 r4]]]]; try discriminate.
  destruct (decode_uXXXX a2 b2 c2 d2) as [uni2|] eqn:D2; [|discriminate].
  destruct (is_low uni2) eqn:Hl2.
  2:{ apply Keep. intros _ (? & ? & ? & ? & ? & ? & [= _ _ <- <- <- <-] & D' & L').
      rewrite D2 in D'. injection D' as <-. congruence. }
  intros R. apply cons_char_some in R. destruct R as (tl & R & ->).
  assert (Rr4 : forallb raw_ok r4 = true).
  { cbn [forallb] in Rr2. repeat (apply andb_true_iff in Rr2; destruct Rr2 as [_ Rr2]).
    exact Rr2. }
  destruct (IH r4 ltac:(simpl in Hlen; lia) Rr4 tl rest R) as [J _].
  pose proof (join_surrogates_range uni uni2 Hh Hl2) as [J1 J2].
  split.
  - apply json_text_cons. repeat split; auto.
    intros c' tl' _ Hc. unfold is_high in Hc. apply andb_true_iff in Hc.
    destruct Hc as [_ Hc]. apply N.leb_le in Hc. lia.
  - intros c' tl' [= <- <-] Hc. unfold is_low in Hc. apply andb_true_iff in Hc.
    destruct Hc as [_ Hc]. apply N.leb_le in Hc. lia.
Qed.

(** Every string the decoder reads out of a document without raw surrogates
    (any document decoded from UTF-8) is such a string: these are the
    strings that reach the program from the service. *)
Theorem scanstring_json_text s str rest :
  forallb raw_ok s = true ->
  scanstring s = Some (str, rest) -> json_text str = true.
Proof.
  intros Raw R.
  apply (scanstring_decoded_ok (List.length s) s (le_n _) Raw str rest R).
Qed.

End JsonRoundTrip.

(** C9 as the specification words it fails on a name made of a high
    surrogate directly followed by a low one: both are written as escapes,
    and the decoder joins the two escapes into one character. *)
Lemma split_pair_is_joined :
  json_loads (json_dumps map_split_pair)
  = Some (folder_map_value
            [ (lit "a", {| name := [128512]%N; parent := None |}) ])
  /\ json_loads (json_dumps map_split_pair)
     <> Some (folder_map_value map_split_pair).
Proof. split; [reflexivity | discriminate]. Qed.

Lemma json_round_trip_witness :
  json_loads (json_dumps map_abc) = Some (folder_map_value map_abc).
Proof.
  apply (json_round_trip map_abc).
  - repeat constructor; simpl; intuition discriminate.
  - reflexivity.
Defined.

(** * Further properties *)

Section MoreBuilderFacts.

Context {St : Type} `{DriveService St}.
Variable cfg : Config.

(** A map comes out of the loop only at the end of a listing. *)
Lemma list_loop_returned_listing fuel :
  forall fm tok s tr m s' tr',
    list_loop cfg fuel fm tok (s, tr) = Some (Returned m, (s', tr')) ->
    exists pages,
      listing cfg s tok pages s'
      /\ tr' = tr ++ listing_events cfg tok pages
      /\ add_folders fm (all_folders pages) = Returned m.
Proof.
  induction fuel as [|fuel IH]; intros fm tok s tr m s' tr';
    [simpl; discriminate|].
  destruct (files_list (folder_list_params cfg tok) s) as [[resp|e0] s1] eqn:E.
  - rewrite (list_loop_step cfg fuel fm tok s tr resp s1 E).
    destruct (add_folders fm (get_files resp)) as [fm'|] eqn:A; [|discriminate].
    destruct (nextPageToken resp) as [t|] eqn:Hn.
    + intros R. destruct (IH _ _ _ _ _ _ _ R) as (pages & L & -> & A').
      exists (resp :: pages). split; [eapply listing_more; eauto|]. split.
      * rewrite <- app_assoc. simpl. rewrite Hn. reflexivity.
      * unfold all_folders. simpl. rewrite add_folders_app, A. exact A'.
    + intros [= <- <- <-]. exists [resp].
      split; [apply listing_last; assumption|]. split; [reflexivity|].
      unfold all_folders. simpl. rewrite app_nil_r. exact A.
  - rewrite (list_loop_raised cfg fuel fm tok s tr e0 s1 E). discriminate.
Qed.

(** X1: whenever the builder returns a map, it has read a whole listing:
    one request per page, each with the cursor of the page before, up to the
    first page without a cursor.  Every record of it could be indexed, and
    the keys of the map are the listed ids, each once. *)
Theorem build_folder_path_map_complete fuel s tr m s' tr' :
  build_folder_path_map cfg fuel (s, tr) = Some (Returned m, (s', tr')) ->
  exists pages,
    listing cfg s None pages s'
    /\ tr' = tr ++ listing_events cfg None pages
    /\ forallb indexable (all_folders pages) = true
    /\ NoDup (keys m)
    /\ forall k, In k (keys m) <-> In (Some k) (map f_id (all_folders pages)).
Proof.
  intros R. destruct (list_loop_returned_listing _ _ _ _ _ _ _ _ R)
    as (pages & L & T & A).
  exists pages. repeat split; auto.
  - eapply add_folders_returned, A.
  - apply (add_folders_keys _ _ _ A). constructor.
  - intros Hk. apply (proj2 (add_folders_keys _ _ _ A) k) in Hk.
    destruct Hk as [[]|Hk]. exact Hk.
  - intros Hk. apply (proj2 (add_folders_keys _ _ _ A) k). right. exact Hk.
Qed.

(** The loop issues requests of the folder listing and nothing else. *)
Lemma list_loop_only_lists fuel :
  forall fm tok s tr r s' tr',
    list_loop cfg fuel fm tok (s, tr) = Some (r, (s', tr')) ->
    exists calls, tr' = tr ++ calls /\ Forall (folder_listing_call cfg) calls.
Proof.
  induction fuel as [|fuel IH]; intros fm tok s tr r s' tr';
    [simpl; discriminate|].
  destruct (files_list (folder_list_params cfg tok) s) as [[resp|e0] s1] eqn:E.
  - rewrite (list_loop_step cfg fuel fm tok s tr resp s1 E).
    set (ev := EvList (folder_list_params cfg tok) (Returned resp)).
    assert (Hev : folder_listing_call cfg ev) by (do 2 eexists; reflexivity).
    assert (One : forall r0,
               Some (r0, (s1, tr ++ [ev])) = Some (r, (s', tr')) ->
               exists calls,
                 tr' = tr ++ calls /\ Forall (folder_listing_call cfg) calls).
    { intros r0 [= <- <- <-]. exists [ev]. split; [reflexivity|].
      constructor; [exact Hev | constructor]. }
    destruct (add_folders fm (get_files resp)) as [fm'|e1]; [|apply One].
    destruct (nextPageToken resp) as [t|]; [|apply One].
    intros R. destruct (IH _ _ _ _ _ _ _ R) as (calls & -> & F).
    exists (ev :: calls). rewrite <- app_assoc. split; [reflexivity|].
    constructor; assumption.
  - rewrite (list_loop_raised cfg fuel fm tok s tr e0 s1 E).
    intros [= <- <- <-]. eexists. split; [reflexivity|].
    constructor; [do 2 eexists; reflexivity | constructor].
Qed.

(** X6: whenever the builder raises, for a request that failed with a
    provider error or for a record it cannot index, the entry point answers
    500 with an error body whose message is the text of that exception: the
    provider's message, the words of an index error, or the missing key,
    name or id, between quotes.  The run holds requests of the folder
    listing only: no search, no update and no create. *)
Theorem builder_error_gives_500 s0 s fuel tr e s' tr' :
  connect s0 = (Returned tt, s) ->
  build_folder_path_map cfg fuel (s, tr) = Some (Raised e, (s', tr')) ->
  forall text,
    match e with
    | ServiceError msg => text = msg
    | IndexError => text = lit "list index out of range"
    | KeyError key =>
        (key = lit "name" /\ text = lit "'name'")
        \/ (key = lit "id" /\ text = lit "'id'")
    | _ => False
    end ->
    main cfg fuel (s0, tr)
    = Some (Returned ([ (lit "status", VStr (lit "error"));
                        (lit "message", VStr text) ], 500%N), (s', tr'))
    /\ exists calls,
         tr' = tr ++ calls
         /\ Forall
              (fun ev =>
                 exists tok r,
                   ev = EvList
                          {| lp_q := lit "mimeType='application/vnd.google-apps.folder' and trashed=false";
                             lp_corpora := Some (lit "drive");
                             lp_driveId := SHARED_DRIVE_ID cfg;
                             lp_includeItemsFromAllDrives := true;
                             lp_supportsAllDrives := true;
                             lp_fields := lit "nextPageToken, files(id, name, parents)";
                             lp_pageSize := Some 1000%N;
                             lp_pageToken := tok |} r)
              calls.
Proof.
  intros C B text T. split.
  - rewrite main_steps, C, B.
    destruct e; try contradiction;
      [subst text | subst text | destruct T as [[-> ->]|[-> ->]]];
      reflexivity.
  - destruct (list_loop_only_lists _ _ _ _ _ _ _ _ B) as (calls & -> & F).
    exists calls. split; [reflexivity | exact F].
Qed.

(** The requests of the loop form a chain of cursors. *)
Lemma list_loop_cursor_chain fuel :
  forall fm tok s tr r s' tr',
    list_loop cfg fuel fm tok (s, tr) = Some (r, (s', tr')) ->
    exists calls, tr' = tr ++ calls /\ cursor_chain cfg tok calls.
Proof.
  induction fuel as [|fuel IH]; intros fm tok s tr r s' tr';
    [simpl; discriminate|].
  destruct (files_list (folder_list_params cfg tok) s) as [[resp|e0] s1] eqn:E.
  - rewrite (list_loop_step cfg fuel fm tok s tr resp s1 E).
    destruct (add_folders fm (get_files resp)) as [fm'|e1].
    + destruct (nextPageToken resp) as [t|] eqn:Hn.
      * intros R. destruct (IH _ _ _ _ _ _ _ R) as (calls & -> & Ch).
        eexists. rewrite <- app_assoc. split; [reflexivity|].
        cbn [cursor_chain]. eexists. split; [reflexivity|].
        cbv iota beta. rewrite Hn. exact Ch.
      * intros [= <- <- <-]. eexists. split; [reflexivity|].
        cbn [cursor_chain]. eexists. split; [reflexivity|].
        cbv iota beta. rewrite Hn. reflexivity.
    + intros [= <- <- <-]. eexists. split; [reflexivity|].
      cbn [cursor_chain]. eexists. split; [reflexivity|].
      cbv iota beta. destruct (nextPageToken resp); reflexivity.
  - rewrite (list_loop_raised cfg fuel fm tok s tr e0 s1 E).
    intros [= <- <- <-]. eexists. split; [reflexivity|].
    cbn [cursor_chain]. eexists. split; reflexivity.
Qed.

(** X16: whatever the outcome of a build, its calls are requests of the
    folder listing with the arguments the source passes: the folder filter,
    the drive scope, pages of up to 1000 records.  The first request
    carries no cursor and each later one carries the cursor of the answer
    before it; nothing is requested after an answer without a cursor or
    after a request that raised. *)
Theorem listing_requests_carry_cursor fuel s tr r s' tr' :
  build_folder_path_map cfg fuel (s, tr) = Some (r, (s', tr')) ->
  exists calls, tr' = tr ++ calls /\ cursor_chain cfg None calls.
Proof. apply list_loop_cursor_chain. Qed.

(** X5: the first record that cannot be indexed stops the build, whatever
    comes after it, and decides the exception: [IndexError] for an empty
    parents list; otherwise [KeyError] for the name when the record has no
    name, also when it has no id either; otherwise [KeyError] for the id. *)
Theorem first_bad_record_decides s pages s' before bad after :
  listing cfg s None pages s' ->
  all_folders pages = before ++ bad :: after ->
  forallb indexable before = true ->
  indexable bad = false ->
  forall fuel tr,
    List.length pages <= fuel ->
    exists e w',
      build_folder_path_map cfg fuel (s, tr) = Some (Raised e, w')
      /\ (f_parents bad = Some [] -> e = IndexError)
      /\ (f_parents bad <> Some [] -> f_name bad = None ->
          e = KeyError (lit "name"))
      /\ (f_parents bad <> Some [] -> f_name bad <> None ->
          e = KeyError (lit "id")).
Proof.
  intros L Split Good Bad fuel tr Hfuel.
  destruct (add_folders_total [] before Good) as [m1 A1].
  assert (E : exists e,
             add_folder m1 bad = Raised e
             /\ (f_parents bad = Some [] -> e = IndexError)
             /\ (f_parents bad <> Some [] -> f_name bad = None ->
                 e = KeyError (lit "name"))
             /\ (f_parents bad <> Some [] -> f_name bad <> None ->
                 e = KeyError (lit "id"))).
  { unfold indexable in Bad. unfold add_folder, first_parent.
    destruct bad as [[i|] [n|] [[|p ps]|]]; simpl in *; try discriminate;
      eexists; (split; [reflexivity|]); repeat split;
      intros; try reflexivity; try congruence. }
  destruct E as (e & E & Props).
  assert (A : add_folders [] (all_folders pages) = Raised e).
  { rewrite Split, add_folders_app, A1. simpl. rewrite E. reflexivity. }
  destruct (list_loop_listing_raises cfg s None pages s' L fuel [] tr e Hfuel A)
    as [w' R].
  exists e, w'. split; [exact R | exact Props].
Qed.

(** The last record with an id writes the entry that stays. *)
Lemma add_folders_get_last fm m before folder after i n p :
  add_folders fm (before ++ folder :: after) = Returned m ->
  f_id folder = Some i -> f_name folder = Some n ->
  first_parent folder = Returned p ->
  ~ In (Some i) (map f_id after) ->
  dict_get i m = Some {| name := n; parent := p |}.
Proof.
  intros A Hi Hn Hp Hlast. rewrite add_folders_app in A.
  destruct (add_folders fm before) as [m1|]; simpl in A; [|discriminate].
  unfold add_folder in A. rewrite Hp, Hn, Hi in A. simpl in A.
  rewrite (add_folders_get_other _ _ _ _ Hlast A).
  apply dict_get_set_same.
Qed.

(** X4: when an id is listed more than once, the map still has one entry
    for it, and the entry is the one of the last record with that id, name
    and parent. *)
Theorem later_record_overwrites s pages s' before folder after i n p :
  listing cfg s None pages s' ->
  all_folders pages = before ++ folder :: after ->
  f_id folder = Some i -> f_name folder = Some n ->
  first_parent folder = Returned p ->
  ~ In (Some i) (map f_id after) ->
  forall fuel tr m w',
    build_folder_path_map cfg fuel (s, tr) = Some (Returned m, w') ->
    dict_get i m = Some {| name := n; parent := p |}
    /\ NoDup (keys m).
Proof.
  intros L Split Hi Hn Hp Hlast fuel tr m w' R.
  pose proof (build_folder_path_map_result cfg s pages s' fuel tr m w' L R) as A.
  split.
  - rewrite Split in A. eapply add_folders_get_last; eauto.
  - apply (add_folders_keys _ _ _ A). constructor.
Qed.

(** Records with fresh, distinct ids are appended in their order. *)
Lemma add_folders_in_order fs :
  forall fm m,
    add_folders fm fs = Returned m ->
    NoDup (map f_id fs) ->
    (forall k, In k (keys fm) -> ~ In (Some k) (map f_id fs)) ->
    exists added, m = fm ++ added /\ Forall2 entry_from fs added.
Proof.
  induction fs as [|f fs IH]; intros fm m; simpl.
  - intros [= <-] _ _. exists []. rewrite app_nil_r. split; constructor.
  - destruct (add_folder fm f) as [fm'|] eqn:E; simpl; [|discriminate].
    intros A ND Fresh.
    destruct (add_folder_indexable fm f (add_folder_returned _ _ _ E))
      as (i & n & p & Hi & Hn & Hp & E').
    rewrite E' in E. injection E as <-.
    inversion ND as [|? ? Hnot ND']; subst.
    rewrite dict_set_fresh in A.
    2:{ intros Hin. apply (Fresh i Hin). left. exact Hi. }
    destruct (IH _ _ A ND') as (added & -> & F).
    { intros k Hk. unfold keys in Hk. rewrite map_app in Hk.
      apply in_app_or in Hk. destruct Hk as [Hk|[<-|[]]].
      - intros Hin. apply (Fresh k Hk). right. exact Hin.
      - simpl. rewrite <- Hi. exact Hnot. }
    exists ((i, {| name := n; parent := p |}) :: added).
    rewrite <- app_assoc. split; [reflexivity|].
    constructor; [|exact F]. repeat split; assumption.
Qed.

(** X3: over a listing with distinct ids, the map the builder returns has
    one entry per record, in the order of the listing: keyed by the record's
    id, with its name, and with its first parent or [None] when the record
    has no parents field. *)
Theorem build_folder_path_map_in_order s pages s' :
  listing cfg s None pages s' ->
  NoDup (map f_id (all_folders pages)) ->
  forall fuel tr m w',
    build_folder_path_map cfg fuel (s, tr) = Some (Returned m, w') ->
    Forall2 entry_from (all_folders pages) m.
Proof.
  intros L ND fuel tr m w' R.
  pose proof (build_folder_path_map_result cfg s pages s' fuel tr m w' L R) as A.
  destruct (add_folders_in_order _ _ _ A ND) as (added & -> & F).
  - intros k [].
  - exact F.
Qed.

End MoreBuilderFacts.

Section MorePublisherFacts.

Context {St : Type} `{DriveService St}.
Variable cfg : Config.

(** X7: when the credentials or the client cannot be set up, the
    constructor re-raises, and the entry point answers 500 with an error
    body whose message is the text of that error, whatever the fuel, and
    issues no request at all. *)
Theorem connect_failure_gives_500 s msg s1 :
  connect s = (Raised (ServiceError msg), s1) ->
  forall fuel tr,
    main cfg fuel (s, tr)
    = Some (Returned ([ (lit "status", VStr (lit "error"));
                        (lit "message", VStr msg) ], 500%N), (s1, tr)).
Proof. intros C fuel tr. rewrite main_steps, C. reflexivity. Qed.

(** X9: the publisher always finishes; it issues the search first and then
    at most one write, an update or a create, never both; and it returns a
    value only after a write that succeeded, namely the id in that write's
    answer. *)
Theorem upload_map_to_drive_call_shape folder_id filename m s tr :
  exists r s' found writes,
    upload_map_to_drive folder_id filename m (s, tr)
    = Some (r, (s', tr ++ EvList (search_params filename folder_id) found
                         :: writes))
    /\ (writes = []
        \/ (exists p a, writes = [EvUpdate p a])
        \/ (exists p a, writes = [EvCreate p a]))
    /\ (forall file_id, r = Returned file_id ->
        exists file,
          f_id file = file_id
          /\ ((exists p, writes = [EvUpdate p (Returned file)])
              \/ (exists p, writes = [EvCreate p (Returned file)]))).
Proof.
  rewrite upload_map_to_drive_steps. cbv zeta.
  destruct (files_list _ s) as [[sr|e0] s1].
  - destruct (get_files sr) as [|first rest].
    + destruct (files_create _ s1) as [[file|e] s2];
        do 4 eexists; rewrite <- app_assoc;
        (split; [reflexivity|]); (split; [right; right; eauto|]);
        simpl; intros fid [= <-]; eauto.
    + destruct (f_id first) as [fid|].
      * destruct (files_update _ s1) as [[file|e] s2];
          do 4 eexists; rewrite <- app_assoc;
          (split; [reflexivity|]); (split; [right; left; eauto|]);
          simpl; intros fid' [= <-]; eauto.
      * do 4 eexists. split; [reflexivity|]. split; [left; reflexivity|].
        intros fid [=].
  - do 4 eexists. split; [reflexivity|]. split; [left; reflexivity|].
    intros fid [=].
Qed.

(** X10: when the first match of the search has no id, the publisher raises
    [KeyError] for the id and issues no write, even if a later match has an
    id. *)
Theorem first_match_without_id_raises folder_id filename m s tr sr s1 first rest :
  files_list (search_params filename folder_id) s = (Returned sr, s1) ->
  get_files sr = first :: rest ->
  f_id first = None ->
  upload_map_to_drive folder_id filename m (s, tr)
  = Some (Raised (KeyError (lit "id")),
          (s1, tr ++ [EvList (search_params filename folder_id)
                        (Returned sr)])).
Proof.
  intros E Hf Hid. rewrite upload_map_to_drive_steps. cbv zeta.
  rewrite E, Hf, Hid. reflexivity.
Qed.

(** X11: when the update or the create fails with a provider error, the
    entry point answers 500 with an error body whose message is the text of
    that error; the failed write is the last call of the run, so there is
    no second attempt. *)
Theorem write_failure_gives_500 fuel s0 tr s m s1 tr1 sr s2 msg s3 :
  let search :=
    {| lp_q := lit "name = 'folder_map.txt' and '"
                 ++ match SHARED_DRIVE_FOLDER cfg with
                    | Some i => i
                    | None => lit "None"
                    end
                 ++ lit "' in parents and trashed = false";
       lp_corpora := None; lp_driveId := None;
       lp_includeItemsFromAllDrives := true; lp_supportsAllDrives := true;
       lp_fields := lit "files(id)"; lp_pageSize := None;
       lp_pageToken := None |} in
  let media :=
    {| m_body := json_dumps m; m_mimetype := lit "text/plain";
       m_resumable := true |} in
  let failed : Response :=
    ([ (lit "status", VStr (lit "error")); (lit "message", VStr msg) ],
     500%N) in
  connect s0 = (Returned tt, s) ->
  build_folder_path_map cfg fuel (s, tr) = Some (Returned m, (s1, tr1)) ->
  files_list search s1 = (Returned sr, s2) ->
  (forall first rest fid,
      get_files sr = first :: rest ->
      f_id first = Some fid ->
      let update :=
        {| up_fileId := fid; up_media_body := media;
           up_fields := lit "id"; up_supportsAllDrives := true |} in
      files_update update s2 = (Raised (ServiceError msg), s3) ->
      main cfg fuel (s0, tr)
      = Some (Returned failed,
              (s3, tr1 ++ [ EvList search (Returned sr);
                            EvUpdate update (Raised (ServiceError msg)) ])))
  /\ (get_files sr = [] ->
      let create :=
        {| cp_body := {| md_name := lit "folder_map.txt";
                         md_parents := [SHARED_DRIVE_FOLDER cfg];
                         md_mimeType := lit "text/plain" |};
           cp_media_body := media;
           cp_fields := lit "id"; cp_supportsAllDrives := true |} in
      files_create create s2 = (Raised (ServiceError msg), s3) ->
      main cfg fuel (s0, tr)
      = Some (Returned failed,
              (s3, tr1 ++ [ EvList search (Returned sr);
                            EvCreate create (Raised (ServiceError msg)) ]))).
Proof.
  intros search media failed C B S.
  change (files_list (search_params map_filename (SHARED_DRIVE_FOLDER cfg)) s1
          = (Returned sr, s2)) in S.
  rewrite main_steps, C, B, upload_map_to_drive_steps. cbv zeta.
  rewrite S. split.
  - intros first rest fid Hf Hfid U.
    change (files_update (update_params fid (media_of m)) s2
            = (Raised (ServiceError msg), s3)) in U.
    rewrite Hf, Hfid, U, <- app_assoc. reflexivity.
  - intros Hf Cr.
    change (files_create
              (create_params map_filename (SHARED_DRIVE_FOLDER cfg)
                 (media_of m)) s2
            = (Raised (ServiceError msg), s3)) in Cr.
    rewrite Hf, Cr, <- app_assoc. reflexivity.
Qed.

(** X12: a whole run.  Over a listing that ends and whose records can all
    be indexed, with a search and a write that succeed, the entry point
    answers 200 with the success body, whose file_id is the id of the
    write's answer; the calls are the listing, the search for
    folder_map.txt in the configured container and one write, an update of
    the first match or a create of folder_map.txt in the container, and the
    write carries the serialized map of all listed records as plain
    text. *)
Theorem main_publishes_built_map s0 s pages s1 sr s2 file s3 :
  let search :=
    {| lp_q := lit "name = 'folder_map.txt' and '"
                 ++ match SHARED_DRIVE_FOLDER cfg with
                    | Some i => i
                    | None => lit "None"
                    end
                 ++ lit "' in parents and trashed = false";
       lp_corpora := None; lp_driveId := None;
       lp_includeItemsFromAllDrives := true; lp_supportsAllDrives := true;
       lp_fields := lit "files(id)"; lp_pageSize := None;
       lp_pageToken := None |} in
  let published : Response :=
    ([ (lit "status", VStr (lit "success"));
       (lit "message", VStr (lit "Map updated successfully"));
       (lit "file_id",
        match f_id file with Some i => VStr i | None => VNone end) ],
     200%N) in
  connect s0 = (Returned tt, s) ->
  listing cfg s None pages s1 ->
  forallb indexable (all_folders pages) = true ->
  files_list search s1 = (Returned sr, s2) ->
  forall fuel tr,
    List.length pages <= fuel ->
    exists m,
      add_folders [] (all_folders pages) = Returned m
      /\ let media :=
           {| m_body := json_dumps m; m_mimetype := lit "text/plain";
              m_resumable := true |} in
         (forall first rest fid,
             get_files sr = first :: rest ->
             f_id first = Some fid ->
             let update :=
               {| up_fileId := fid; up_media_body := media;
                  up_fields := lit "id"; up_supportsAllDrives := true |} in
             files_update update s2 = (Returned file, s3) ->
             main cfg fuel (s0, tr)
             = Some (Returned published,
                     (s3, tr ++ listing_events cfg None pages
                             ++ [ EvList search (Returned sr);
                                  EvUpdate update (Returned file) ])))
         /\ (get_files sr = [] ->
             let create :=
               {| cp_body := {| md_name := lit "folder_map.txt";
                                md_parents := [SHARED_DRIVE_FOLDER cfg];
                                md_mimeType := lit "text/plain" |};
                  cp_media_body := media;
                  cp_fields := lit "id"; cp_supportsAllDrives := true |} in
             files_create create s2 = (Returned file, s3) ->
             main cfg fuel (s0, tr)
             = Some (Returned published,
                     (s3, tr ++ listing_events cfg None pages
                             ++ [ EvList search (Returned sr);
                                  EvCreate create (Returned file) ]))).
Proof.
  intros search published C L WF S fuel tr Hfuel.
  change (files_list (search_params map_filename (SHARED_DRIVE_FOLDER cfg)) s1
          = (Returned sr, s2)) in S.
  destruct (add_folders_total [] _ WF) as [m A].
  exists m. split; [exact A|]. cbv zeta.
  pose proof (list_loop_listing cfg s None pages s1 L fuel [] tr m Hfuel A) as B.
  fold (build_folder_path_map cfg fuel (s, tr)) in B.
  rewrite main_steps, C, B, upload_map_to_drive_steps. cbv zeta.
  rewrite S. split.
  - intros first rest fid Hf Hfid U.
    change (files_update (update_params fid (media_of m)) s2
            = (Returned file, s3)) in U.
    rewrite Hf, Hfid, U, <- !app_assoc. reflexivity.
  - intros Hf Cr.
    change (files_create
              (create_params map_filename (SHARED_DRIVE_FOLDER cfg)
                 (media_of m)) s2
            = (Returned file, s3)) in Cr.
    rewrite Hf, Cr, <- !app_assoc. reflexivity.
Qed.

(** X13: an answer with status 200 means that the listing was read to its
    end, that the search for folder_map.txt in the configured container
    succeeded, and that one write succeeded, an update of the first match
    or, without a match, a create of folder_map.txt in the container, whose
    content is the serialized map of all listed records; the body is the
    success body, and its file_id is the id in that write's answer. *)
Theorem success_means_published fuel s0 tr body s' tr' :
  main cfg fuel (s0, tr) = Some (Returned (body, 200%N), (s', tr')) ->
  exists s1 pages s2 m found write file,
    let search :=
      {| lp_q := lit "name = 'folder_map.txt' and '"
                   ++ match SHARED_DRIVE_FOLDER cfg with
                      | Some i => i
                      | None => lit "None"
                      end
                   ++ lit "' in parents and trashed = false";
         lp_corpora := None; lp_driveId := None;
         lp_includeItemsFromAllDrives := true; lp_supportsAllDrives := true;
         lp_fields := lit "files(id)"; lp_pageSize := None;
         lp_pageToken := None |} in
    let media :=
      {| m_body := json_dumps m; m_mimetype := lit "text/plain";
         m_resumable := true |} in
    connect s0 = (Returned tt, s1)
    /\ listing cfg s1 None pages s2
    /\ add_folders [] (all_folders pages) = Returned m
    /\ tr' = tr ++ listing_events cfg None pages
                ++ [EvList search (Returned found); write]
    /\ body = [ (lit "status", VStr (lit "success"));
                (lit "message", VStr (lit "Map updated successfully"));
                (lit "file_id",
                 match f_id file with Some i => VStr i | None => VNone end) ]
    /\ ((exists first rest fid,
            get_files found = first :: rest /\ f_id first = Some fid
            /\ write = EvUpdate
                         {| up_fileId := fid; up_media_body := media;
                            up_fields := lit "id";
                            up_supportsAllDrives := true |}
                         (Returned file))
        \/ (get_files found = []
            /\ write = EvCreate
                         {| cp_body := {| md_name := lit "folder_map.txt";
                                          md_parents := [SHARED_DRIVE_FOLDER cfg];
                                          md_mimeType := lit "text/plain" |};
                            cp_media_body := media;
                            cp_fields := lit "id";
                            cp_supportsAllDrives := true |}
                         (Returned file))).
Proof.
  rewrite main_steps.
  destruct (connect s0) as [[[]|e0] s1] eqn:C.
  2:{ unfold handled. destruct (is_Exception e0); discriminate. }
  destruct (build_folder_path_map cfg fuel (s1, tr))
    as [[[m|e1] [s2 tr2]]|] eqn:B; [| |discriminate].
  2:{ unfold handled. destruct (is_Exception e1); discriminate. }
  destruct (list_loop_returned_listing cfg _ _ _ _ _ _ _ _ B)
    as (pages & L & -> & A).
  rewrite upload_map_to_drive_steps. cbv zeta.
  destruct (files_list _ s2) as [[found|e2] s3].
  2:{ unfold handled. destruct (is_Exception e2); discriminate. }
  destruct (get_files found) as [|first rest] eqn:Hf.
  - destruct (files_create _ s3) as [[file|e3] s4].
    2:{ unfold write_result, handled. destruct (is_Exception e3); discriminate. }
    simpl. intros [= <- <- <-].
    exists s1, pages, s2, m, found. do 2 eexists. cbv zeta.
    split; [reflexivity|]. split; [exact L|]. split; [exact A|].
    split; [rewrite <- !app_assoc; reflexivity|].
    split; [reflexivity|]. right. split; [exact Hf | reflexivity].
  - destruct (f_id first) as [fid|] eqn:Hfid; [|discriminate].
    destruct (files_update _ s3) as [[file|e3] s4].
    2:{ unfold write_result, handled. destruct (is_Exception e3); discriminate. }
    simpl. intros [= <- <- <-].
    exists s1, pages, s2, m, found. do 2 eexists. cbv zeta.
    split; [reflexivity|]. split; [exact L|]. split; [exact A|].
    split; [rewrite <- !app_assoc; reflexivity|].
    split; [reflexivity|]. left. exists first, rest, fid.
    split; [exact Hf|]. split; [exact Hfid | reflexivity].
Qed.

End MorePublisherFacts.

(** X14: whatever strings the map holds, the encoding step of the publisher
    does not raise, and the bytes it uploads are the characters of the
    serialized text, all below 128. *)
Theorem published_bytes_are_ascii (m : FolderMap) :
  utf8_encode (json_dumps m) = Returned (json_dumps m)
  /\ Forall (fun b => (b < 128)%N) (json_dumps m).
Proof.
  split; [apply utf8_encode_json_dumps|].
  apply Forall_forall. intros b Hb.
  pose proof (json_dumps_ascii m) as A. unfold is_ascii in A.
  rewrite forallb_forall in A. apply N.ltb_lt, A, Hb.
Qed.

(** X15: the file name and the container id are spliced into the filter as
    they are.  A name that contains a quote gives the same filter text as a
    shorter name with another container id. *)
Theorem search_query_not_escaped (filename extra : pystr) (folder_id : option pystr) :
  search_query (filename ++ lit "' and '" ++ extra) folder_id
  = search_query filename (Some (extra ++ lit "' and '" ++ fmt_opt folder_id)).
Proof.
  unfold search_query. cbn [fmt_opt]. repeat rewrite <- app_assoc. reflexivity.
Qed.

(** ** The further properties on recorded sessions *)


Lemma build_folder_path_map_complete_witness :
  exists pages,
    listing cfg0 session_abc None pages session_abc_read
    /\ listing_events cfg0 None pages_abc = [] ++ listing_events cfg0 None pages
    /\ forallb indexable (all_folders pages) = true
    /\ NoDup (keys map_listed_abc)
    /\ forall k,
         In k (keys map_listed_abc)
         <-> In (Some k) (map f_id (all_folders pages)).
Proof.
  apply (build_folder_path_map_complete cfg0 2 session_abc [] map_listed_abc
           session_abc_read (listing_events cfg0 None pages_abc)).
  reflexivity.
Defined.

Lemma build_folder_path_map_keys_witness :
  exists m,
    build_folder_path_map cfg0 2 (session_abc, [])
    = Some (Returned m,
            (session_abc_read, [] ++ listing_events cfg0 None pages_abc))
    /\ NoDup (keys m)
    /\ forall k,
         In k (keys m) <-> In (Some k) (map f_id (all_folders pages_abc)).
Proof.
  apply (build_folder_path_map_keys cfg0 session_abc pages_abc session_abc_read).
  - exact listing_abc.
  - reflexivity.
  - simpl. lia.
Defined.

Lemma builder_error_gives_500_witness :
  main cfg0 1 (session_without_name, [])
  = Some (Returned ([ (lit "status", VStr (lit "error"));
                      (lit "message", VStr (lit "'name'")) ], 500%N),
          (session [] [],
           [EvList (folder_list_params cfg0 None)
              (page [ record "a" "A" None; record_without_name;
                      record "c" "C" (Some []) ] None)]))
  /\ exists calls,
       [EvList (folder_list_params cfg0 None)
          (page [ record "a" "A" None; record_without_name;
                  record "c" "C" (Some []) ] None)]
       = [] ++ calls
       /\ Forall
            (fun ev =>
               exists tok r,
                 ev = EvList
                        {| lp_q := lit "mimeType='application/vnd.google-apps.folder' and trashed=false";
                           lp_corpora := Some (lit "drive");
                           lp_driveId := Some (lit "drive-1");
                           lp_includeItemsFromAllDrives := true;
                           lp_supportsAllDrives := true;
                           lp_fields := lit "nextPageToken, files(id, name, parents)";
                           lp_pageSize := Some 1000%N;
                           lp_pageToken := tok |} r)
            calls.
Proof.
  refine (builder_error_gives_500 cfg0 session_without_name
            session_without_name 1 [] (KeyError (lit "name")) (session [] [])
            _ _ _ (lit "'name'") _);
    try reflexivity.
  left. split; reflexivity.
Defined.

Lemma listing_without_name :
  listing cfg0 session_without_name None pages_without_name (session [] []).
Proof. apply listing_last; reflexivity. Qed.

Lemma first_bad_record_decides_witness :
  exists e w',
    build_folder_path_map cfg0 1 (session_without_name, [])
    = Some (Raised e, w')
    /\ (f_parents record_without_name = Some [] -> e = IndexError)
    /\ (f_parents record_without_name <> Some [] ->
        f_name record_without_name = None -> e = KeyError (lit "name"))
    /\ (f_parents record_without_name <> Some [] ->
        f_name record_without_name <> None -> e = KeyError (lit "id")).
Proof.
  apply (first_bad_record_decides cfg0 session_without_name pages_without_name
           (session [] []) [ record "a" "A" None ] record_without_name
           [ record "c" "C" (Some []) ]).
  - exact listing_without_name.
  - reflexivity.
  - reflexivity.
  - reflexivity.
  - simpl. lia.
Defined.

Lemma listing_duplicate_id :
  listing cfg0 session_duplicate_id None pages_duplicate_id (session [] []).
Proof.
  eapply listing_more; [reflexivity | reflexivity |].
  apply listing_last; reflexivity.
Qed.

Lemma later_record_overwrites_witness :
  dict_get (lit "a")
    [ (lit "a", {| name := lit "New"; parent := None |});
      (lit "b", {| name := lit "B"; parent := None |}) ]
  = Some {| name := lit "New"; parent := None |}
  /\ NoDup (keys [ (lit "a", {| name := lit "New"; parent := None |});
                   (lit "b", {| name := lit "B"; parent := None |}) ]).
Proof.
  apply (later_record_overwrites cfg0 session_duplicate_id pages_duplicate_id
           (session [] [])
           [ record "a" "Old" (Some [Some (lit "x"); Some (lit "y")]);
             record "b" "B" None ]
           (record "a" "New" None) [] (lit "a") (lit "New") None
           listing_duplicate_id eq_refl eq_refl eq_refl eq_refl
           (fun H : False => H)
           2 [] _ (session [] [], listing_events cfg0 None pages_duplicate_id)).
  reflexivity.
Defined.

Lemma build_folder_path_map_in_order_witness :
  Forall2 entry_from (all_folders pages_abc) map_listed_abc.
Proof.
  apply (build_folder_path_map_in_order cfg0 session_abc pages_abc
           session_abc_read listing_abc) with
    (fuel := 2) (tr := @nil event)
    (w' := (session_abc_read, listing_events cfg0 None pages_abc)).
  - repeat constructor; simpl; intuition discriminate.
  - reflexivity.
Defined.

Lemma connect_failure_gives_500_witness :
  main cfg0 0 (session_connect_fails, [])
  = Some (Returned ([ (lit "status", VStr (lit "error"));
                      (lit "message", VStr (lit "no credentials")) ], 500%N),
          (session_connect_fails, [])).
Proof.
  apply (connect_failure_gives_500 cfg0 session_connect_fails
           (lit "no credentials") session_connect_fails).
  reflexivity.
Defined.

Lemma failed_list_call_gives_500_witness :
  exists calls,
    [ EvList (folder_list_params cfg0 None)
        (page [ record "a" "A" None ] (Some (lit "t1")));
      EvList (folder_list_params cfg0 (Some (lit "t1")))
        (Raised (ServiceError (lit "quota exceeded"))) ]
    = [] ++ calls
    /\ forall p msg,
         In (EvList p (Raised (ServiceError msg))) calls ->
         ([ (lit "status", VStr (lit "error"));
            (lit "message", VStr (lit "quota exceeded")) ], 500%N)
         = ([ (lit "status", VStr (lit "error"));
              (lit "message", VStr msg) ], 500%N)
         /\ Forall (fun ev => exists p' r, ev = EvList p' r) calls.
Proof.
  apply (failed_list_call_gives_500 cfg0 2 session_listing_fails []
           ([ (lit "status", VStr (lit "error"));
              (lit "message", VStr (lit "quota exceeded")) ], 500%N)
           (session [] [ Returned (only_id (lit "file-1")) ])).
  reflexivity.
Defined.

Lemma first_match_without_id_raises_witness :
  upload_map_to_drive (Some (lit "folder-1")) map_filename []
    (session [ page [ {| f_id := None; f_name := None; f_parents := None |};
                      only_id (lit "Y") ] None ]
       [ Returned (only_id (lit "Y")) ], [])
  = Some (Raised (KeyError (lit "id")),
          (session [] [ Returned (only_id (lit "Y")) ],
           [] ++ [EvList (search_params map_filename (Some (lit "folder-1")))
                    (Returned
                       {| files := Some [ {| f_id := None; f_name := None;
                                             f_parents := None |};
                                          only_id (lit "Y") ];
                          nextPageToken := None |})])).
Proof.
  refine (first_match_without_id_raises (Some (lit "folder-1")) map_filename []
            (session [ page [ {| f_id := None; f_name := None;
                                 f_parents := None |};
                              only_id (lit "Y") ] None ]
               [ Returned (only_id (lit "Y")) ])
            []
            {| files := Some [ {| f_id := None; f_name := None;
                                  f_parents := None |};
                               only_id (lit "Y") ];
               nextPageToken := None |}
            (session [] [ Returned (only_id (lit "Y")) ])
            {| f_id := None; f_name := None; f_parents := None |}
            [ only_id (lit "Y") ] _ _ _);
    reflexivity.
Defined.

Lemma write_failure_gives_500_witness :
  main cfg0 1 (session_create_fails, [])
  = Some (Returned
            ([ (lit "status", VStr (lit "error"));
               (lit "message", VStr (lit "storage quota exceeded")) ], 500%N),
          (session [] [],
           [ EvList (folder_list_params cfg0 None) (page [] None) ]
             ++ [ EvList (search_params map_filename (SHARED_DRIVE_FOLDER cfg0))
                    (Returned {| files := Some []; nextPageToken := None |});
                  EvCreate
                    {| cp_body := {| md_name := lit "folder_map.txt";
                                     md_parents := [Some (lit "folder-1")];
                                     md_mimeType := lit "text/plain" |};
                       cp_media_body := {| m_body := lit "{}";
                                           m_mimetype := lit "text/plain";
                                           m_resumable := true |};
                       cp_fields := lit "id"; cp_supportsAllDrives := true |}
                    (Raised (ServiceError (lit "storage quota exceeded"))) ])).
Proof.
  refine (proj2 (write_failure_gives_500 cfg0 1 session_create_fails []
                   session_create_fails []
                   (session [ page [] None ]
                      [ Raised (ServiceError (lit "storage quota exceeded")) ])
                   [ EvList (folder_list_params cfg0 None) (page [] None) ]
                   {| files := Some []; nextPageToken := None |}
                   (session []
                      [ Raised (ServiceError (lit "storage quota exceeded")) ])
                   (lit "storage quota exceeded")
                   (session [] [])
                   _ _ _) _ _);
    reflexivity.
Defined.

Lemma main_publishes_built_map_witness :
  exists m,
    add_folders [] (all_folders pages_abc) = Returned m
    /\ main cfg0 2 (session_abc, [])
       = Some (Returned
                 ([ (lit "status", VStr (lit "success"));
                    (lit "message", VStr (lit "Map updated successfully"));
                    (lit "file_id", VStr (lit "file-1")) ], 200%N),
               (session [] [],
                [] ++ listing_events cfg0 None pages_abc
                   ++ [ EvList (search_params map_filename
                                  (SHARED_DRIVE_FOLDER cfg0))
                          (Returned {| files := Some [];
                                       nextPageToken := None |});
                        EvCreate
                          {| cp_body := {| md_name := lit "folder_map.txt";
                                           md_parents := [Some (lit "folder-1")];
                                           md_mimeType := lit "text/plain" |};
                             cp_media_body := {| m_body := json_dumps m;
                                                 m_mimetype := lit "text/plain";
                                                 m_resumable := true |};
                             cp_fields := lit "id";
                             cp_supportsAllDrives := true |}
                          (Returned (only_id (lit "file-1"))) ])).
Proof.
  assert (C : connect session_abc = (Returned tt, session_abc))
    by reflexivity.
  assert (S : files_list
                (search_params map_filename (SHARED_DRIVE_FOLDER cfg0))
                session_abc_read
              = (Returned {| files := Some []; nextPageToken := None |},
                 session [] [ Returned (only_id (lit "file-1")) ]))
    by reflexivity.
  assert (WF : forallb indexable (all_folders pages_abc) = true)
    by reflexivity.
  destruct (main_publishes_built_map cfg0 session_abc session_abc pages_abc
              session_abc_read
              {| files := Some []; nextPageToken := None |}
              (session [] [ Returned (only_id (lit "file-1")) ])
              (only_id (lit "file-1")) (session [] [])
              C listing_abc WF S 2 [] (le_n 2))
    as (m & A & _ & Create).
  exists m. split; [exact A|]. apply Create; reflexivity.
Defined.

Lemma success_means_published_witness :
  exists s1 pages s2 m found write file,
    connect session_abc = (Returned tt, s1)
    /\ listing cfg0 s1 None pages s2
    /\ add_folders [] (all_folders pages) = Returned m
    /\ listing_events cfg0 None pages_abc
         ++ [ EvList (search_params map_filename (SHARED_DRIVE_FOLDER cfg0))
                (Returned {| files := Some []; nextPageToken := None |});
              EvCreate
                (create_params map_filename (SHARED_DRIVE_FOLDER cfg0)
                   (media_of map_listed_abc))
                (Returned (only_id (lit "file-1"))) ]
       = [] ++ listing_events cfg0 None pages
            ++ [EvList (search_params map_filename (SHARED_DRIVE_FOLDER cfg0))
                  (Returned found); write]
    /\ [ (lit "status", VStr (lit "success"));
         (lit "message", VStr (lit "Map updated successfully"));
         (lit "file_id", VStr (lit "file-1")) ]
       = [ (lit "status", VStr (lit "success"));
           (lit "message", VStr (lit "Map updated successfully"));
           (lit "file_id",
            match f_id file with Some i => VStr i | None => VNone end) ]
    /\ ((exists first rest fid,
            get_files found = first :: rest /\ f_id first = Some fid
            /\ write = EvUpdate
                         {| up_fileId := fid;
                            up_media_body := {| m_body := json_dumps m;
                                                m_mimetype := lit "text/plain";
                                                m_resumable := true |};
                            up_fields := lit "id";
                            up_supportsAllDrives := true |}
                         (Returned file))
        \/ (get_files found = []
            /\ write = EvCreate
                         {| cp_body := {| md_name := lit "folder_map.txt";
                                          md_parents := [Some (lit "folder-1")];
                                          md_mimeType := lit "text/plain" |};
                            cp_media_body := {| m_body := json_dumps m;
                                                m_mimetype := lit "text/plain";
                                                m_resumable := true |};
                            cp_fields := lit "id";
                            cp_supportsAllDrives := true |}
                         (Returned file))).
Proof.
  apply (success_means_published cfg0 2 session_abc []
           [ (lit "status", VStr (lit "success"));
             (lit "message", VStr (lit "Map updated successfully"));
             (lit "file_id", VStr (lit "file-1")) ]
           (session [] [])).
  reflexivity.
Defined.

Lemma listing_requests_carry_cursor_witness :
  exists calls,
    [ EvList (folder_list_params cfg0 None)
        (page [ record "a" "A" None ] (Some (lit "t1")));
      EvList (folder_list_params cfg0 (Some (lit "t1")))
        (Raised (ServiceError (lit "quota exceeded"))) ]
    = [] ++ calls
    /\ cursor_chain cfg0 None calls.
Proof.
  apply (listing_requests_carry_cursor cfg0 2 session_listing_fails []
           (Raised (ServiceError (lit "quota exceeded")))
           (session [] [ Returned (only_id (lit "file-1")) ])).
  reflexivity.
Defined.

Lemma publish_twice_is_idempotent_witness :
  exists id s1 tr1 s2 file,
    upload_map_to_drive (Some (lit "folder-1")) map_filename map_listed_abc
      (@nil StoredFile, [])
    = Some (Returned (Some id), (s1, tr1))
    /\ upload_map_to_drive (Some (lit "folder-1")) map_filename map_abc
         (s1, tr1)
       = Some (Returned (Some id),
               (s2,
                tr1 ++ [ EvList
                           (search_params map_filename (Some (lit "folder-1")))
                           (Returned
                              {| files := Some [ {| f_id := Some id;
                                                    f_name := None;
                                                    f_parents := None |} ];
                                 nextPageToken := None |});
                         EvUpdate
                           {| up_fileId := id;
                              up_media_body :=
                                {| m_body := json_dumps map_abc;
                                   m_mimetype := lit "text/plain";
                                   m_resumable := true |};
                              up_fields := lit "id";
                              up_supportsAllDrives := true |}
                           (Returned {| f_id := Some id; f_name := None;
                                        f_parents := None |}) ]))
    /\ List.length s2 = List.length s1
    /\ filter (named_in map_filename (lit "folder-1")) s2 = [file]
    /\ sf_id file = id
    /\ sf_content file = json_dumps map_abc.
Proof.
  apply (publish_twice_is_idempotent (lit "folder-1") map_filename
           map_listed_abc map_abc [] []).
  - reflexivity.
  - reflexivity.
  - simpl. lia.
Defined.
